(** * cropfish: checkerboard location, corner scaling and cropping

    A shallow embedding of [src/cropfish/cropfish.py].

    Numbers.  Coordinates are NumPy floating-point values in the program.
    They are modelled by the rationals [Q]: every finite float is a
    rational, and the comparisons, [min], [max] and [int()] used by
    [crop_image] are exact on finite floats, so that function is modelled
    without loss on finite inputs.  The arithmetic of [scale_corners] is
    given three times: [scale_corners] is its exact (unrounded) reading,
    used where only the composition of the calls matters;
    [scale_corners_fl] rounds the result of every operation, as floating
    point does while nothing overflows or underflows; [F64.scale_corners]
    runs on IEEE binary64 numbers themselves, with their infinities and
    NaN.  The rescaling in [find_corners] is the exact one.

    Arrays.  An image is a two-dimensional NumPy array: a shape together
    with its rows.  The pixel type is left abstract (a colour pixel is a
    vector of channels, a grey pixel an 8-bit number).

    Library calls.  [cv2.resize], [cv2.cvtColor],
    [cv2.findChessboardCorners] and [cv2.imread] are parameters of the
    development: total functions about which nothing is assumed.  The
    calls of [print], of the detector and of [cv2.imwrite] are recorded,
    in order, as the actions of a run. *)

From Stdlib Require Import ZArith QArith Qround Qabs Qpower Lia Lqa List.
From Corelib Require PrimFloat.
From Stdlib Require FloatOps.
From stdpp Require Import gmap strings list.

Local Open Scope Z_scope.

(** ** Python numbers *)

Module Py.

(** [int(x)] on a float: truncation toward zero. *)
Definition int (x : Q) : Z := Z.quot (Qnum x) (Z.pos (Qden x)).

(** [x < y] on numbers. *)
Definition lt (x y : Q) : bool := negb (Qle_bool y x).

(** The builtin [min(a, b)]: the first argument unless the second is
    strictly smaller. *)
Definition min (a b : Q) : Q := if lt b a then b else a.

(** The builtin [max(a, b)]: the first argument unless the second is
    strictly greater. *)
Definition max (a b : Q) : Q := if lt a b then b else a.

(** Adjustment of one bound of a slice [a:b] (step 1) over a sequence
    of length [len], as CPython's [PySlice_AdjustIndices] does it: a
    negative bound counts from the far end and is floored at 0, a bound
    past the end is cut to the length. *)
Definition adjust_index (len i : Z) : Z :=
  if i <? 0 then
    (if i + len <? 0 then 0 else i + len)
  else if len <=? i then len
  else i.

(** First selected position of [a:b]. *)
Definition slice_start (len a : Z) : Z := adjust_index len a.

(** Number of selected positions of [a:b]. *)
Definition slice_length (len a b : Z) : Z :=
  let s := adjust_index len a in
  let e := adjust_index len b in
  if s <? e then e - s else 0.

(** [l[a:b]] where [len] is the length of [l]. *)
Definition slice {A} (len : Z) (a b : Z) (l : list A) : list A :=
  take (Z.to_nat (slice_length len a b)) (drop (Z.to_nat (slice_start len a)) l).

End Py.

(** ** NumPy arrays *)

Record ndarray (A : Type) := mk_ndarray {
  nrows : nat;
  ncols : nat;
  rows : list (list A)
}.
Arguments mk_ndarray {A} _ _ _.
Arguments nrows {A} _.
Arguments ncols {A} _.
Arguments rows {A} _.

(** The shape agrees with the data. *)
Definition wf_ndarray {A} (a : ndarray A) : Prop :=
  length (rows a) = nrows a /\ Forall (fun r => length r = ncols a) (rows a).

(** [a[y0:y1, x0:x1]]: basic slicing on the two leading axes. *)
Definition slice2 {A} (a : ndarray A) (y0 y1 x0 x1 : Z) : ndarray A :=
  let h := Z.of_nat (nrows a) in
  let w := Z.of_nat (ncols a) in
  {| nrows := Z.to_nat (Py.slice_length h y0 y1);
     ncols := Z.to_nat (Py.slice_length w x0 x1);
     rows := map (Py.slice w x0 x1) (Py.slice h y0 y1 (rows a)) |}.

(** Elementwise map, as in [(gray < t).astype(np.uint8) * 255]. *)
Definition ndmap {A B} (f : A -> B) (a : ndarray A) : ndarray B :=
  {| nrows := nrows a; ncols := ncols a; rows := map (map f) (rows a) |}.

(** ** Coordinates: two-element vectors [(x, y)] *)

Record coord := Coord { at0 : Q; at1 : Q }.

Definition vadd (u v : coord) : coord := Coord (at0 u + at0 v) (at1 u + at1 v).
Definition vsub (u v : coord) : coord := Coord (at0 u - at0 v) (at1 u - at1 v).
Definition vmul (u : coord) (k : Q) : coord := Coord (at0 u * k) (at1 u * k).
Definition vdiv (u : coord) (k : Q) : coord := Coord (at0 u / k) (at1 u / k).

(** Equality of vectors as numbers. *)
Definition veq (u v : coord) : Prop := (at0 u == at0 v)%Q /\ (at1 u == at1 v)%Q.

(** ** [scale_corners]

    The function read in exact arithmetic.  The statements that use it
    are about which calls are composed, or evaluate it where floating
    point is exact; the rounding of lines 16 to 19 is in
    [scale_corners_fl] and [F64.scale_corners] below. *)

Definition scale_corners (coord1 coord2 : coord) : coord * coord :=
  let center := vdiv (vadd coord1 coord2) 2 in
  let scaling_factor := (8 / 6)%Q in
  let scaled_coord1 := vadd center (vmul (vsub coord1 center) scaling_factor) in
  let scaled_coord2 := vadd center (vmul (vsub coord2 center) scaling_factor) in
  (scaled_coord1, scaled_coord2).

(** ** [crop_image] *)

Definition crop_image {A} (image : ndarray A) (coord1 coord2 : coord) : ndarray A :=
  let min_x := Py.int (Py.min (at0 coord1) (at0 coord2)) in
  let max_x := Py.int (Py.max (at0 coord1) (at0 coord2)) in
  let min_y := Py.int (Py.min (at1 coord1) (at1 coord2)) in
  let max_y := Py.int (Py.max (at1 coord1) (at1 coord2)) in
  slice2 image min_y max_y min_x max_x.

(** ** Exceptions, effects and the monad that threads them *)

Inductive exn :=
| ZeroDivisionError
| IndexError
| NameError (name : string)
| CvError.

Inductive outcome (X : Type) :=
| Ret (x : X)
| Raise (e : exn).
Arguments Ret {X} _.
Arguments Raise {X} _.

(** What the program prints. *)
Inductive message :=
| MsgTrying (threshold_value : Z)
| MsgNotFound
| MsgCoords (scaled_coord1 scaled_coord2 : coord).

(** The observable actions of a run, in the order they happen. *)
Inductive event (pixel : Type) :=
| Print (m : message)
| FindChessboardCorners (binary : ndarray Z) (pattern_size : Z * Z)
| Imwrite (filename : string) (img : ndarray pixel).
Arguments Print {pixel} _.
Arguments FindChessboardCorners {pixel} _ _.
Arguments Imwrite {pixel} _ _.

(** A computation takes the actions performed so far and returns its
    outcome with the actions extended. *)
Definition M (pixel X : Type) : Type :=
  list (event pixel) -> outcome X * list (event pixel).

Definition ret {pixel X} (x : X) : M pixel X := fun t => (Ret x, t).

Definition raise {pixel X} (e : exn) : M pixel X := fun t => (Raise e, t).

Definition bind {pixel X Y} (m : M pixel X) (k : X -> M pixel Y) : M pixel Y :=
  fun t =>
    match m t with
    | (Ret x, t') => k x t'
    | (Raise e, t') => (Raise e, t')
    end.

Definition emit {pixel} (e : event pixel) : M pixel unit :=
  fun t => (Ret tt, t ++ [e]).

Definition lift {pixel X} (o : outcome X) : M pixel X := fun t => (o, t).

Declare Scope prog_scope.
Delimit Scope prog_scope with prog.
Notation "x <- m ;; k" := (bind m (fun x => k))
  (at level 100, m at next level, right associativity) : prog_scope.
Notation "m ;; k" := (bind m (fun _ => k))
  (at level 100, right associativity) : prog_scope.

(** Python's true division [a / b] on numbers. *)
Definition truediv (a b : Q) : outcome Q :=
  if Qeq_bool b 0 then Raise ZeroDivisionError else Ret (a / b)%Q.

(** Indexing [l[i]] with a possibly negative index. *)
Definition getitem {A} (l : list A) (i : Z) : outcome A :=
  let n := Z.of_nat (length l) in
  let j := if i <? 0 then i + n else i in
  if (0 <=? j) && (j <? n) then
    match l !! Z.to_nat j with
    | Some x => Ret x
    | None => Raise IndexError
    end
  else Raise IndexError.

(** The actions of a run that write an image file. *)
Definition writes {pixel} (t : list (event pixel)) : list (string * ndarray pixel) :=
  omap (fun e => match e with Imwrite f i => Some (f, i) | _ => None end) t.

(** The binary images handed to the detector, in order. *)
Definition detections {pixel} (t : list (event pixel)) : list (ndarray Z * (Z * Z)) :=
  omap (fun e => match e with FindChessboardCorners b p => Some (b, p) | _ => None end) t.

(** ** [find_corners] and [cropfish_cli] *)

Section Program.

Variable pixel : Type.

(** [cv2.resize(image, None, fx=fx, fy=fy)] *)
Variable resize : ndarray pixel -> Q -> Q -> ndarray pixel.
(** [cv2.cvtColor(image, cv2.COLOR_BGR2GRAY)] *)
Variable cvtColor_BGR2GRAY : ndarray pixel -> ndarray Z.
(** [cv2.findChessboardCorners(binary, pattern_size, None)]: the
    success flag and the corners found, in the detector's order. *)
Variable findChessboardCorners : ndarray Z -> Z * Z -> bool * list coord.
(** [cv2.imread(path)]: the decoded image, or [None]. *)
Variable imread : string -> option (ndarray pixel).

Local Open Scope prog_scope.

(** [(gray < threshold_value).astype(np.uint8) * 255] *)
Definition binarize (gray : ndarray Z) (threshold_value : Z) : ndarray Z :=
  ndmap (fun p => (if p <? threshold_value then 1 else 0) * 255) gray.

(** The [for] loop of [find_corners] over the remaining thresholds;
    [None] when the loop runs to its end without returning. *)
Fixpoint try_thresholds (gray : ndarray Z) (resize_factor : Q) (ts : list Z)
  : M pixel (option (coord * coord)) :=
  match ts with
  | [] => ret None
  | threshold_value :: ts' =>
      emit (Print (MsgTrying threshold_value)) ;;
      let binary := binarize gray threshold_value in
      let pattern_size := (7, 7) in
      emit (FindChessboardCorners binary pattern_size) ;;
      let '(found, corners) := findChessboardCorners binary pattern_size in
      if found then
        k <- lift (truediv 1 resize_factor) ;;
        let corners := map (fun c => vmul c k) corners in
        first <- lift (getitem corners 0) ;;
        last <- lift (getitem corners (-1)) ;;
        ret (Some (first, last))
      else try_thresholds gray resize_factor ts'
  end.

Definition find_corners (image : ndarray pixel) (resize_factor : Q)
  : M pixel (option coord * option coord) :=
  let resized_image := resize image resize_factor resize_factor in
  let gray := cvtColor_BGR2GRAY resized_image in
  r <- try_thresholds gray resize_factor [160; 192] ;;
  match r with
  | Some (first, last) => ret (Some first, Some last)
  | None =>
      emit (Print MsgNotFound) ;;
      ret (None, None)
  end.

(** The body of the command.  [cv2.imread] gives [None] for a file it
    cannot decode, and [cv2.resize], the first call of [find_corners],
    rejects it. *)
Definition cropfish_cli (image_path : string) : M pixel unit :=
  match imread image_path with
  | None => raise CvError
  | Some image =>
      let resize_factor := 0.5%Q in
      cs <- find_corners image resize_factor ;;
      match cs with
      | (Some coord1, Some coord2) =>
          let '(scaled_coord1, scaled_coord2) := scale_corners coord1 coord2 in
          emit (Print (MsgCoords scaled_coord1 scaled_coord2)) ;;
          let cropped_image := crop_image image scaled_coord1 scaled_coord2 in
          emit (Imwrite "output.png" cropped_image)
      | _ => ret tt
      end
  end.

End Program.

Arguments find_corners {pixel} _ _ _ _ _ _.
Arguments try_thresholds {pixel} _ _ _ _ _.
Arguments cropfish_cli {pixel} _ _ _ _ _ _.

(** ** Loading the module

    The top level of [cropfish.py] is a sequence of statements executed
    in order against the module's namespace.  An [import] binds names; a
    [def] first evaluates its decorator expressions and its annotations,
    which looks their global names up, and only then binds the function's
    name; the final [if] calls the command when the file is run as a
    script.  Looking up a name that is neither a global nor a builtin
    raises [NameError]. *)

Module Loader.

Inductive stmt :=
| Import (bound : list string)
| Def (name : string) (evaluated : list string)
| IfMain (callee : string).

Record state := mk_state {
  globals : gset string;
  called : list string
}.

(** The builtins the file refers to, and the attributes every module
    starts with. *)
Definition builtins : gset string :=
  list_to_set ["dict"; "float"; "int"; "min"; "max"; "print"].

Definition initial : state :=
  {| globals := list_to_set ["__name__"; "__doc__"]; called := [] |}.

Definition bound (s : state) (name : string) : bool :=
  bool_decide (name ∈ globals s) || bool_decide (name ∈ builtins).

(** The first name of [names] whose lookup fails. *)
Definition first_unbound (s : state) (names : list string) : option string :=
  List.find (fun n => negb (bound s n)) names.

Definition define (s : state) (names : list string) : state :=
  {| globals := list_to_set names ∪ globals s; called := called s |}.

Fixpoint exec (is_main : bool) (body : list stmt) (s : state) : outcome unit * state :=
  match body with
  | [] => (Ret tt, s)
  | Import names :: rest => exec is_main rest (define s names)
  | Def name evaluated :: rest =>
      match first_unbound s evaluated with
      | Some n => (Raise (NameError n), s)
      | None => exec is_main rest (define s [name])
      end
  | IfMain callee :: rest =>
      match first_unbound s ["__name__"] with
      | Some n => (Raise (NameError n), s)
      | None =>
          if is_main then
            match first_unbound s [callee] with
            | Some n => (Raise (NameError n), s)
            | None =>
                exec is_main rest
                  {| globals := globals s; called := called s ++ [callee] |}
            end
          else exec is_main rest s
      end
  end.

(** The statements of [cropfish.py], with the global names each [def]
    evaluates, in evaluation order: the decorators from the top, then
    the annotations. *)
Definition cropfish_module : list stmt :=
  [ Import ["cv2"];
    Import ["np"];
    Import ["Tuple"; "Union"];
    Def "scale_corners" ["np"; "np"; "Tuple"; "np"; "np"];
    Def "find_corners" ["np"; "float"; "Tuple"; "Union"; "np"; "Union"; "np"];
    Def "crop_image" ["np"; "np"; "np"; "np"];
    Def "cropfish_cli" ["click"; "dict"; "__doc__"; "click"; "click"];
    IfMain "cropfish_cli" ].

Definition load (is_main : bool) : outcome unit * state :=
  exec is_main cropfish_module initial.

End Loader.

(** ** The crop of the specification

    The specification describes the slice of [crop_image] as one whose
    bounds are cut to the image's extent.  [clamped_sub] is that reading:
    each bound is brought into [0 .. len] before the half-open range is
    taken. *)

Definition clamp (len i : Z) : Z := Z.max 0 (Z.min i len).

Definition clamped_range {A} (len : Z) (a b : Z) (l : list A) : list A :=
  take (Z.to_nat (clamp len b - clamp len a)) (drop (Z.to_nat (clamp len a)) l).

Definition clamped_sub {A} (a : ndarray A) (y0 y1 x0 x1 : Z) : ndarray A :=
  let h := Z.of_nat (nrows a) in
  let w := Z.of_nat (ncols a) in
  {| nrows := Z.to_nat (clamp h y1 - clamp h y0);
     ncols := Z.to_nat (clamp w x1 - clamp w x0);
     rows := map (clamped_range w x0 x1) (clamped_range h y0 y1 (rows a)) |}.

Definition spec_crop_image {A} (image : ndarray A) (coord1 coord2 : coord) : ndarray A :=
  let min_x := Py.int (Py.min (at0 coord1) (at0 coord2)) in
  let max_x := Py.int (Py.max (at0 coord1) (at0 coord2)) in
  let min_y := Py.int (Py.min (at1 coord1) (at1 coord2)) in
  let max_y := Py.int (Py.max (at1 coord1) (at1 coord2)) in
  clamped_sub image min_y max_y min_x max_x.

(** A negative bound counted from the far end, as Python reads it. *)
Definition from_end (len i : Z) : Z := if i <? 0 then i + len else i.


Definition dist2 (u v : coord) : Q :=
  ((at0 u - at0 v) * (at0 u - at0 v) + (at1 u - at1 v) * (at1 u - at1 v))%Q.

(** The four bounds [crop_image] computes, named for the statements
    below. *)
Definition crop_min_x (coord1 coord2 : coord) : Z := Py.int (Py.min (at0 coord1) (at0 coord2)).
Definition crop_max_x (coord1 coord2 : coord) : Z := Py.int (Py.max (at0 coord1) (at0 coord2)).
Definition crop_min_y (coord1 coord2 : coord) : Z := Py.int (Py.min (at1 coord1) (at1 coord2)).
Definition crop_max_y (coord1 coord2 : coord) : Z := Py.int (Py.max (at1 coord1) (at1 coord2)).

(** The element [a[i, j]] at a position inside the array. *)
Definition pixel_at {A} (a : ndarray A) (i j : nat) : option A :=
  match rows a !! i with
  | Some r => r !! j
  | None => None
  end.

(** A coordinate with both components truncated, [int(c[0]), int(c[1])]. *)
Definition truncated (c : coord) : coord :=
  Coord (inject_Z (Py.int (at0 c))) (inject_Z (Py.int (at1 c))).

(** The two results of [find_corners] are present together or absent
    together. *)
Definition paired {X} (r : option X * option X) : bool :=
  match r with
  | (Some _, Some _) | (None, None) => true
  | _ => false
  end.

(** ** [scale_corners] in floating point

    NumPy evaluates lines 16 to 19 operation by operation on the array's
    float type, and [8 / 6] is itself the float nearest to 4/3.  While no
    result overflows or underflows, each operation returns the rounding
    of its exact result; [scale_corners_fl] is [scale_corners] with that
    rounding, [rnd], applied after every operation.  With the identity
    for [rnd] it is [scale_corners] itself. *)

Definition vadd_fl (rnd : Q -> Q) (u v : coord) : coord :=
  Coord (rnd (at0 u + at0 v)%Q) (rnd (at1 u + at1 v)%Q).
Definition vsub_fl (rnd : Q -> Q) (u v : coord) : coord :=
  Coord (rnd (at0 u - at0 v)%Q) (rnd (at1 u - at1 v)%Q).
Definition vmul_fl (rnd : Q -> Q) (u : coord) (k : Q) : coord :=
  Coord (rnd (at0 u * k)%Q) (rnd (at1 u * k)%Q).
Definition vdiv_fl (rnd : Q -> Q) (u : coord) (k : Q) : coord :=
  Coord (rnd (at0 u / k)%Q) (rnd (at1 u / k)%Q).

Definition scale_corners_fl (rnd : Q -> Q) (coord1 coord2 : coord) : coord * coord :=
  let center := vdiv_fl rnd (vadd_fl rnd coord1 coord2) 2 in
  let scaling_factor := rnd (8 / 6)%Q in
  let scaled_coord1 :=
    vadd_fl rnd center (vmul_fl rnd (vsub_fl rnd coord1 center) scaling_factor) in
  let scaled_coord2 :=
    vadd_fl rnd center (vmul_fl rnd (vsub_fl rnd coord2 center) scaling_factor) in
  (scaled_coord1, scaled_coord2).

(** The [center] that [scale_corners_fl] computes. *)
Definition center_fl (rnd : Q -> Q) (coord1 coord2 : coord) : coord :=
  vdiv_fl rnd (vadd_fl rnd coord1 coord2) 2.

(** Componentwise absolute value, and agreement of two vectors within a
    tolerance given per axis. *)
Definition vabs (v : coord) : coord := Coord (Qabs (at0 v)) (Qabs (at1 v)).

Definition vwithin (tol a b : coord) : Prop :=
  (Qabs (at0 a - at0 b) <= at0 tol)%Q /\ (Qabs (at1 a - at1 b) <= at1 tol)%Q.

(** The tolerance [k * u * (|c1| + |c2|)] on each axis, for a unit
    roundoff [u]. *)
Definition tolerance (k u : Q) (coord1 coord2 : coord) : coord :=
  Coord (k * (u * (Qabs (at0 coord1) + Qabs (at0 coord2))))%Q
        (k * (u * (Qabs (at1 coord1) + Qabs (at1 coord2))))%Q.

(** Rounding to the nearest number with [p] significant bits, ties to
    even, with no bound on the exponent: the rounding of binary64 for
    [p = 53] and of binary32 for [p = 24], away from overflow and
    underflow. *)
Module Rounding.

(** [floor (log2 x)] for a positive rational. *)
Definition ilog2 (x : Q) : Z :=
  let e := (Z.log2 (Qnum x) - Z.log2 (Z.pos (Qden x)))%Z in
  if Qle_bool (2 ^ e) x then e else (e - 1)%Z.

(** The nearest integer, ties to even. *)
Definition nearest_even (y : Q) : Z :=
  let f := Qfloor y in
  match Qcompare (y - inject_Z f) (1 # 2) with
  | Lt => f
  | Gt => (f + 1)%Z
  | Eq => if Z.even f then f else (f + 1)%Z
  end.

Definition round (p : Z) (x : Q) : Q :=
  if Qeq_bool x 0 then 0%Q
  else
    let ulp := (2 ^ (ilog2 (Qabs x) - p + 1))%Q in
    (inject_Z (nearest_even (x / ulp)) * ulp)%Q.

(** The unit roundoff [2 ^ (- p)]. *)
Definition unit_roundoff (p : Z) : Q := (2 ^ (- p))%Q.

End Rounding.

(** IEEE binary64, the arithmetic of Python floats and of NumPy
    [float64] arrays: [scale_corners] on the machine numbers. *)
Module F64.

Import PrimFloat.
Local Open Scope float_scope.

Record fcoord := FCoord { f0 : float; f1 : float }.

Definition vadd (u v : fcoord) : fcoord := FCoord (f0 u + f0 v) (f1 u + f1 v).
Definition vsub (u v : fcoord) : fcoord := FCoord (f0 u - f0 v) (f1 u - f1 v).
Definition vmul (u : fcoord) (k : float) : fcoord := FCoord (f0 u * k) (f1 u * k).
Definition vdiv (u : fcoord) (k : float) : fcoord := FCoord (f0 u / k) (f1 u / k).

Definition scale_corners (coord1 coord2 : fcoord) : fcoord * fcoord :=
  let center := vdiv (vadd coord1 coord2) 2 in
  let scaling_factor := 8 / 6 in
  let scaled_coord1 := vadd center (vmul (vsub coord1 center) scaling_factor) in
  let scaled_coord2 := vadd center (vmul (vsub coord2 center) scaling_factor) in
  (scaled_coord1, scaled_coord2).

(** [center] and [scaling_factor] as the function computes them. *)
Definition center (coord1 coord2 : fcoord) : fcoord := vdiv (vadd coord1 coord2) 2.
Definition scaling_factor : float := 8 / 6.

(** [abs(a - b)] and [(a + b) / 2] on floats. *)
Definition distance (a b : float) : float := abs (a - b).

(** The rational a finite float stands for; [None] for an infinity or
    a NaN. *)
Definition to_Q (x : float) : option Q :=
  match FloatOps.Prim2SF x with
  | SpecFloat.S754_zero _ => Some 0%Q
  | SpecFloat.S754_finite s m e =>
      Some ((if s then - inject_Z (Z.pos m) else inject_Z (Z.pos m)) * 2 ^ e)%Q
  | _ => None
  end.

(** Sample points: (100, 100), (101, 101) and (2^1023, 2^1023). *)
Definition p100 : fcoord := FCoord 100 100.
Definition p101 : fcoord := FCoord 101 101.

(** Sample operations: [0.1 + 0.2], [-7 / 3], and two sums that fall
    halfway between neighbouring floats. *)
Definition sum_tenths : float := 1 / 10 + 2 / 10.
Definition minus_seven_thirds : float := -7 / 3.
Definition tie_down : float := 0x1p53 + 1.
Definition tie_up : float := 0x1p53 + 3.

End F64.

(** ** Sample inputs *)

Module Sample.

(** One row of four pixels. *)
Definition strip : ndarray Z := mk_ndarray 1 4 [[10; 11; 12; 13]].

(** Three rows of four pixels. *)
Definition grid : ndarray Z :=
  mk_ndarray 3 4 [[10; 11; 12; 13]; [20; 21; 22; 23]; [30; 31; 32; 33]].

(** One bright pixel. *)
Definition bright : ndarray Z := mk_ndarray 1 1 [[200]].

(** Stand-ins for the library: the image is already grey and is not
    resampled; the detector reports three corners when the top-left
    pixel of the binary image is white. *)
Definition resize (image : ndarray Z) (fx fy : Q) : ndarray Z := image.

Definition cvtColor_BGR2GRAY (image : ndarray Z) : ndarray Z := image.

Definition findChessboardCorners (binary : ndarray Z) (pattern_size : Z * Z)
  : bool * list coord :=
  match rows binary with
  | (255 :: _) :: _ => (true, [Coord 2 2; Coord 4 2; Coord 6 6])
  | _ => (false, [])
  end.

Definition imread (path : string) : option (ndarray Z) :=
  if String.eqb path "board.png" then Some grid
  else if String.eqb path "blank.png" then Some bright
  else None.

End Sample.

(** * Properties *)

(** ** Loading *)

(** C2. Loading [cropfish.py], as a script or as an imported module,
    raises [NameError] for the name [click]: no statement of the file
    binds it, the decorators of [cropfish_cli] look it up, and at that
    point nothing has been called and [cropfish_cli] is not bound, so the
    command never runs. *)
Theorem load_raises_NameError_click :
  forall is_main : bool,
    fst (Loader.load is_main) = Raise (NameError "click") /\
    Loader.called (snd (Loader.load is_main)) = [] /\
    Loader.bound (snd (Loader.load is_main)) "cropfish_cli" = false /\
    Forall (fun st => match st with
                      | Loader.Import names => "click" ∉ names
                      | Loader.Def name _ => name <> "click"
                      | Loader.IfMain _ => True
                      end) Loader.cropfish_module.
Proof.
  intros is_main.
  assert (Hrun : Loader.load is_main =
                 (Raise (NameError "click"),
                  Loader.define (Loader.define (Loader.define (Loader.define
                    (Loader.define (Loader.define Loader.initial ["cv2"]) ["np"])
                    ["Tuple"; "Union"]) ["scale_corners"]) ["find_corners"])
                    ["crop_image"])).
  { destruct is_main; vm_compute; reflexivity. }
  rewrite Hrun. cbn [fst snd].
  split; [reflexivity|]. split; [reflexivity|]. split; [vm_compute; reflexivity|].
  unfold Loader.cropfish_module.
  repeat (constructor;
          [first [exact I | discriminate
                 | intros Hin%list_elem_of_In; simpl in Hin; intuition discriminate] |]).
  constructor.
Qed.

(** ** The definitions at work *)

Example int_truncates_toward_zero :
  Py.int (-3 # 2) = -1 /\ Py.int (7 # 2) = 3 /\ Py.int (-1 # 3) = 0.
Proof. repeat split. Qed.

Example min_max_keep_first_on_ties :
  Py.min (1 # 2) (2 # 4) = (1 # 2)%Q /\ Py.max (1 # 2) (2 # 4) = (1 # 2)%Q.
Proof. split; reflexivity. Qed.

Example slice_examples :
  Py.slice 4 1 10 [10; 11; 12; 13] = [11; 12; 13] /\
  Py.slice 4 (-1) 3 [10; 11; 12; 13] = [] /\
  Py.slice 4 (-3) (-1) [10; 11; 12; 13] = [11; 12] /\
  Py.slice 4 (-10) 2 [10; 11; 12; 13] = [10; 11] /\
  Py.slice 4 3 1 [10; 11; 12; 13] = [].
Proof. repeat split. Qed.

Example crop_grid :
  crop_image Sample.grid (Coord (7 # 2) (5 # 2)) (Coord (3 # 2) (1 # 3))
  = mk_ndarray 2 2 [[11; 12]; [21; 22]].
Proof. reflexivity. Qed.

Example scale_corners_6_to_8 :
  veq (fst (scale_corners (Coord 1 1) (Coord 7 7))) (Coord 0 0) /\
  veq (snd (scale_corners (Coord 1 1) (Coord 7 7))) (Coord 8 8).
Proof. split; split; reflexivity. Qed.

Example getitem_examples :
  getitem [1; 2; 3] 0 = Ret 1 /\ getitem [1; 2; 3] (-1) = Ret 3 /\
  getitem (@nil Z) 0 = Raise IndexError /\ truediv 1 0 = Raise ZeroDivisionError.
Proof. repeat split. Qed.

Example cli_on_blank_image :
  cropfish_cli Sample.resize Sample.cvtColor_BGR2GRAY Sample.findChessboardCorners
    Sample.imread "blank.png" []
  = (Ret tt,
     [Print (MsgTrying 160);
      FindChessboardCorners (mk_ndarray 1 1 [[0]]) (7, 7);
      Print (MsgTrying 192);
      FindChessboardCorners (mk_ndarray 1 1 [[0]]) (7, 7);
      Print MsgNotFound]).
Proof. reflexivity. Qed.

(** ** Truncation, [min] and [max] *)

Section Numbers.

Local Open Scope Z_scope.

Lemma int_nonneg (x : Q) : 0 <= Qnum x -> Py.int x = Qfloor x.
Proof.
  destruct x as [n d]. cbn [Qnum]. intros Hn.
  unfold Py.int, Qfloor. cbn [Qnum Qden].
  apply Z.quot_div_nonneg; lia.
Qed.

Lemma int_neg (x : Q) : Qnum x < 0 -> Py.int x = Qceiling x.
Proof.
  destruct x as [n d]. cbn [Qnum]. intros Hn.
  unfold Py.int, Qceiling, Qfloor, Qopp. cbn [Qnum Qden].
  rewrite <- (Z.opp_involutive n) at 1.
  rewrite Z.quot_opp_l by lia.
  f_equal. apply Z.quot_div_nonneg; lia.
Qed.

Lemma Qnum_sign_comp (x y : Q) : (x == y)%Q -> Qnum x < 0 -> Qnum y < 0.
Proof.
  unfold Qeq. destruct x as [n d], y as [m e]. cbn [Qnum Qden]. nia.
Qed.

Lemma Qnum_sign_le (x y : Q) : (x <= y)%Q -> Qnum y < 0 -> Qnum x < 0.
Proof.
  unfold Qle. destruct x as [n d], y as [m e]. cbn [Qnum Qden]. nia.
Qed.

(** [int] does not depend on how the number is written. *)
Lemma int_comp (x y : Q) : (x == y)%Q -> Py.int x = Py.int y.
Proof.
  intros Hxy.
  destruct (Z.lt_ge_cases (Qnum x) 0) as [Hx | Hx].
  - rewrite (int_neg x Hx), (int_neg y (Qnum_sign_comp x y Hxy Hx)).
    apply Qceiling_comp, Hxy.
  - assert (Hy : 0 <= Qnum y).
    { destruct (Z.lt_ge_cases (Qnum y) 0) as [Hy | Hy]; [|exact Hy].
      pose proof (Qnum_sign_comp y x (Qeq_sym _ _ Hxy) Hy). lia. }
    rewrite (int_nonneg x Hx), (int_nonneg y Hy).
    apply Qfloor_comp, Hxy.
Qed.

Lemma int_neg_nonpos (x : Q) : Qnum x < 0 -> Py.int x <= 0.
Proof.
  intros Hx. unfold Py.int.
  apply Z.quot_le_upper_bound; lia.
Qed.

Lemma int_nonneg_nonneg (x : Q) : 0 <= Qnum x -> 0 <= Py.int x.
Proof.
  intros Hx. unfold Py.int. apply Z.quot_pos; lia.
Qed.

(** Truncation is monotone. *)
Lemma int_mono (x y : Q) : (x <= y)%Q -> Py.int x <= Py.int y.
Proof.
  intros Hxy.
  destruct (Z.lt_ge_cases (Qnum y) 0) as [Hy | Hy].
  - pose proof (Qnum_sign_le x y Hxy Hy) as Hx.
    rewrite (int_neg x Hx), (int_neg y Hy). apply Qceiling_resp_le, Hxy.
  - destruct (Z.lt_ge_cases (Qnum x) 0) as [Hx | Hx].
    + pose proof (int_neg_nonpos x Hx). pose proof (int_nonneg_nonneg y Hy). lia.
    + rewrite (int_nonneg x Hx), (int_nonneg y Hy). apply Qfloor_resp_le, Hxy.
Qed.

Lemma lt_spec (x y : Q) : Py.lt x y = true <-> (x < y)%Q.
Proof.
  unfold Py.lt. rewrite negb_true_iff.
  destruct (Qle_bool y x) eqn:E.
  - apply Qle_bool_iff in E. split; [discriminate|].
    intros H. exfalso. apply (Qlt_not_le _ _ H), E.
  - split; [|reflexivity]. intros _. apply Qnot_le_lt.
    intros H. apply Qle_bool_iff in H. congruence.
Qed.

Lemma lt_false (x y : Q) : Py.lt x y = false <-> (y <= x)%Q.
Proof.
  unfold Py.lt. rewrite negb_false_iff. apply Qle_bool_iff.
Qed.

Lemma min_comm (a b : Q) : (Py.min a b == Py.min b a)%Q.
Proof.
  unfold Py.min.
  destruct (Py.lt b a) eqn:Eba, (Py.lt a b) eqn:Eab; try reflexivity.
  - apply lt_spec in Eba, Eab. exfalso.
    apply (Qlt_irrefl a). eapply Qlt_trans; eauto.
  - apply lt_false in Eba, Eab. apply Qle_antisym; assumption.
Qed.

Lemma max_comm (a b : Q) : (Py.max a b == Py.max b a)%Q.
Proof.
  unfold Py.max.
  destruct (Py.lt a b) eqn:Eab, (Py.lt b a) eqn:Eba; try reflexivity.
  - apply lt_spec in Eba, Eab. exfalso.
    apply (Qlt_irrefl a). eapply Qlt_trans; eauto.
  - apply lt_false in Eba, Eab. apply Qle_antisym; assumption.
Qed.

Lemma min_le_max (a b : Q) : (Py.min a b <= Py.max a b)%Q.
Proof.
  unfold Py.min, Py.max.
  destruct (Py.lt b a) eqn:Eba, (Py.lt a b) eqn:Eab.
  - apply Qle_refl.
  - apply lt_false in Eab. exact Eab.
  - apply lt_false in Eba. exact Eba.
  - apply Qle_refl.
Qed.

Lemma int_min_comm (a b : Q) : Py.int (Py.min a b) = Py.int (Py.min b a).
Proof. apply int_comp, min_comm. Qed.

Lemma int_max_comm (a b : Q) : Py.int (Py.max a b) = Py.int (Py.max b a).
Proof. apply int_comp, max_comm. Qed.

Lemma int_min_le_max (a b : Q) : Py.int (Py.min a b) <= Py.int (Py.max a b).
Proof. apply int_mono, min_le_max. Qed.

End Numbers.

(** ** Slices *)

Section Slices.

Context {A : Type}.
Implicit Types (l : list A) (len a b i : Z).

Lemma adjust_index_range len i : 0 <= len -> 0 <= Py.adjust_index len i <= len.
Proof.
  intros Hlen. unfold Py.adjust_index.
  destruct (i <? 0) eqn:E1; [destruct (i + len <? 0) eqn:E2|destruct (len <=? i) eqn:E3];
    lia.
Qed.

(** Python reads a bound by counting a negative one from the far end
    and then cutting the result to the sequence. *)
Lemma adjust_index_from_end len i :
  0 <= len -> Py.adjust_index len i = clamp len (from_end len i).
Proof.
  intros Hlen. unfold Py.adjust_index, clamp, from_end.
  destruct (i <? 0) eqn:E1; [destruct (i + len <? 0) eqn:E2|destruct (len <=? i) eqn:E3];
    lia.
Qed.

Lemma adjust_index_inside len i : 0 <= i <= len -> Py.adjust_index len i = i.
Proof.
  intros Hi. unfold Py.adjust_index.
  destruct (i <? 0) eqn:E1; [lia|]. destruct (len <=? i) eqn:E3; lia.
Qed.

Lemma adjust_index_negative len i :
  0 <= len -> i < 0 -> Py.adjust_index len i = Z.max 0 (len + i).
Proof.
  intros Hlen Hi. unfold Py.adjust_index.
  destruct (i <? 0) eqn:E1; [|lia]. destruct (i + len <? 0) eqn:E2; lia.
Qed.

Lemma slice_length_from_end len a b :
  0 <= len ->
  Z.to_nat (Py.slice_length len a b)
  = Z.to_nat (clamp len (from_end len b) - clamp len (from_end len a)).
Proof.
  intros Hlen. unfold Py.slice_length.
  rewrite !adjust_index_from_end by assumption.
  destruct (_ <? _) eqn:E; lia.
Qed.

Lemma slice_length_inside len a b :
  0 <= a -> a <= b -> b <= len -> Py.slice_length len a b = b - a.
Proof.
  intros Ha Hab Hb. unfold Py.slice_length.
  rewrite !adjust_index_inside by lia.
  destruct (a <? b) eqn:E; lia.
Qed.

Lemma slice_from_end len a b l :
  0 <= len ->
  Py.slice len a b l = clamped_range len (from_end len a) (from_end len b) l.
Proof.
  intros Hlen. unfold Py.slice, clamped_range, Py.slice_start.
  rewrite slice_length_from_end, adjust_index_from_end by assumption.
  reflexivity.
Qed.

Lemma length_slice len a b l :
  Z.of_nat (length l) = len ->
  length (Py.slice len a b l) = Z.to_nat (Py.slice_length len a b).
Proof.
  intros Hlen. unfold Py.slice, Py.slice_start.
  rewrite length_take, length_drop.
  assert (0 <= len) by lia.
  pose proof (adjust_index_range len a ltac:(assumption)).
  pose proof (adjust_index_range len b ltac:(assumption)).
  unfold Py.slice_length.
  destruct (_ <? _) eqn:E; lia.
Qed.

End Slices.

Section Slices2.

Context {A : Type}.

Lemma slice2_from_end (img : ndarray A) y0 y1 x0 x1 :
  let h := Z.of_nat (nrows img) in
  let w := Z.of_nat (ncols img) in
  slice2 img y0 y1 x0 x1
  = clamped_sub img (from_end h y0) (from_end h y1) (from_end w x0) (from_end w x1).
Proof.
  intros h w. unfold slice2, clamped_sub. fold h w.
  rewrite !slice_length_from_end by lia.
  rewrite slice_from_end by lia.
  f_equal. apply map_ext. intros r. apply slice_from_end. lia.
Qed.

(** Slicing keeps the shape and the data in agreement. *)
Lemma wf_slice2 (img : ndarray A) y0 y1 x0 x1 :
  wf_ndarray img -> wf_ndarray (slice2 img y0 y1 x0 x1).
Proof.
  intros [Hrows Hcols]. unfold wf_ndarray, slice2. cbn [nrows ncols rows].
  split.
  - rewrite length_map. apply length_slice. lia.
  - apply Forall_map. unfold Py.slice at 2.
    apply Forall_take, Forall_drop.
    eapply Forall_impl; [exact Hcols|].
    intros r Hr. cbn beta in Hr |- *. apply length_slice. lia.
Qed.

End Slices2.

(** ** [crop_image] *)

Section Crop.

Context {A : Type}.
Lemma crop_image_unfold (image : ndarray A) (coord1 coord2 : coord) :
  crop_image image coord1 coord2
  = slice2 image (crop_min_y coord1 coord2) (crop_max_y coord1 coord2)
                 (crop_min_x coord1 coord2) (crop_max_x coord1 coord2).
Proof. reflexivity. Qed.

Lemma crop_bounds_x (coord1 coord2 : coord) : crop_min_x coord1 coord2 <= crop_max_x coord1 coord2.
Proof. apply int_min_le_max. Qed.

Lemma crop_bounds_y (coord1 coord2 : coord) : crop_min_y coord1 coord2 <= crop_max_y coord1 coord2.
Proof. apply int_min_le_max. Qed.

End Crop.

(** C1, as stated, fails: with x-coordinates -1.5 and 3.5 on a strip four
    pixels wide the bounds are -1 and 3; cutting -1 to the image edge
    would keep columns 0, 1 and 2, but the slice [-1:3] starts at
    column 3 and is empty. *)
Lemma crop_image_negative_bound_not_clamped :
  crop_image Sample.strip (Coord (-3 # 2) 0) (Coord (7 # 2) 1)
  <> spec_crop_image Sample.strip (Coord (-3 # 2) 0) (Coord (7 # 2) 1).
Proof. vm_compute. discriminate. Qed.

(** C1, amended.  [crop_image] is total (it raises nothing) and returns
    the half-open sub-array [image[min_y:max_y, min_x:max_x]] whose bounds
    are the truncated minima and maxima of the two coordinates, where a
    negative bound is first counted from the far end of its axis and every
    bound is then cut to the extent of the image.  When both truncated
    minima are non-negative this is the sub-array with the bounds cut to
    the image edge. *)
Theorem crop_image_slice_semantics :
  forall (A : Type) (image : ndarray A) (coord1 coord2 : coord),
    let h := Z.of_nat (nrows image) in
    let w := Z.of_nat (ncols image) in
    crop_image image coord1 coord2
    = clamped_sub image
        (from_end h (crop_min_y coord1 coord2)) (from_end h (crop_max_y coord1 coord2))
        (from_end w (crop_min_x coord1 coord2)) (from_end w (crop_max_x coord1 coord2))
    /\ (0 <= crop_min_y coord1 coord2 -> 0 <= crop_min_x coord1 coord2 ->
        crop_image image coord1 coord2 = spec_crop_image image coord1 coord2).
Proof.
  intros A image coord1 coord2 h w.
  assert (Hgen : crop_image image coord1 coord2
    = clamped_sub image
        (from_end h (crop_min_y coord1 coord2)) (from_end h (crop_max_y coord1 coord2))
        (from_end w (crop_min_x coord1 coord2)) (from_end w (crop_max_x coord1 coord2))).
  { rewrite crop_image_unfold. apply slice2_from_end. }
  split; [exact Hgen|].
  intros Hy Hx. rewrite Hgen.
  pose proof (crop_bounds_x coord1 coord2) as Hbx.
  pose proof (crop_bounds_y coord1 coord2) as Hby.
  unfold from_end.
  replace (crop_min_y coord1 coord2 <? 0) with false by lia.
  replace (crop_max_y coord1 coord2 <? 0) with false by lia.
  replace (crop_min_x coord1 coord2 <? 0) with false by lia.
  replace (crop_max_x coord1 coord2 <? 0) with false by lia.
  reflexivity.
Qed.

Lemma crop_image_slice_semantics_witness :
  crop_image Sample.grid (Coord (1 # 2) (5 # 2)) (Coord (19 # 2) 1)
  = spec_crop_image Sample.grid (Coord (1 # 2) (5 # 2)) (Coord (19 # 2) 1).
Proof.
  apply (crop_image_slice_semantics Z Sample.grid (Coord (1 # 2) (5 # 2)) (Coord (19 # 2) 1));
    vm_compute; discriminate.
Defined.

(** C8. [crop_image] does not depend on the order of its two
    coordinates. *)
Theorem crop_image_symmetric :
  forall (A : Type) (image : ndarray A) (coord1 coord2 : coord),
    crop_image image coord1 coord2 = crop_image image coord2 coord1.
Proof.
  intros A image coord1 coord2. unfold crop_image.
  rewrite (int_min_comm (at0 coord1)), (int_max_comm (at0 coord1)).
  rewrite (int_min_comm (at1 coord1)), (int_max_comm (at1 coord1)).
  reflexivity.
Qed.

(** C9. When the four truncated bounds lie within the image, the crop
    has [max_y - min_y] rows and [max_x - min_x] columns, in its shape
    and in its data; coinciding bounds give an empty array. *)
Theorem crop_image_shape :
  forall (A : Type) (image : ndarray A) (coord1 coord2 : coord),
    let h := Z.of_nat (nrows image) in
    let w := Z.of_nat (ncols image) in
    let cropped_image := crop_image image coord1 coord2 in
    wf_ndarray image ->
    0 <= crop_min_x coord1 coord2 <= w -> 0 <= crop_max_x coord1 coord2 <= w ->
    0 <= crop_min_y coord1 coord2 <= h -> 0 <= crop_max_y coord1 coord2 <= h ->
    Z.of_nat (nrows cropped_image) = crop_max_y coord1 coord2 - crop_min_y coord1 coord2 /\
    Z.of_nat (ncols cropped_image) = crop_max_x coord1 coord2 - crop_min_x coord1 coord2 /\
    Z.of_nat (length (rows cropped_image))
      = crop_max_y coord1 coord2 - crop_min_y coord1 coord2 /\
    Forall (fun r => Z.of_nat (length r)
                     = crop_max_x coord1 coord2 - crop_min_x coord1 coord2)
           (rows cropped_image).
Proof.
  intros A image coord1 coord2 h w cropped_image Hwf Hx0 Hx1 Hy0 Hy1.
  pose proof (crop_bounds_x coord1 coord2) as Hbx.
  pose proof (crop_bounds_y coord1 coord2) as Hby.
  assert (Hr : Z.of_nat (nrows cropped_image)
               = crop_max_y coord1 coord2 - crop_min_y coord1 coord2).
  { subst cropped_image. rewrite crop_image_unfold. unfold slice2. cbn [nrows].
    fold h. rewrite slice_length_inside by lia. lia. }
  assert (Hc : Z.of_nat (ncols cropped_image)
               = crop_max_x coord1 coord2 - crop_min_x coord1 coord2).
  { subst cropped_image. rewrite crop_image_unfold. unfold slice2. cbn [ncols].
    fold w. rewrite slice_length_inside by lia. lia. }
  destruct (wf_slice2 image (crop_min_y coord1 coord2) (crop_max_y coord1 coord2)
              (crop_min_x coord1 coord2) (crop_max_x coord1 coord2) Hwf) as [Hlen Hall].
  rewrite <- crop_image_unfold in Hlen, Hall. fold cropped_image in Hlen, Hall.
  split; [exact Hr|]. split; [exact Hc|]. split.
  - rewrite Hlen. exact Hr.
  - eapply Forall_impl; [exact Hall|]. intros r Hlr. cbn beta in Hlr |- *.
    rewrite Hlr. exact Hc.
Qed.

Lemma crop_image_shape_witness :
  Z.of_nat (nrows (crop_image Sample.grid (Coord (7 # 2) (5 # 2)) (Coord (3 # 2) (1 # 3)))) = 2 /\
  Z.of_nat (ncols (crop_image Sample.grid (Coord (7 # 2) (5 # 2)) (Coord (3 # 2) (1 # 3)))) = 2.
Proof.
  destruct (crop_image_shape Z Sample.grid (Coord (7 # 2) (5 # 2)) (Coord (3 # 2) (1 # 3)))
    as (Hr & Hc & _).
  - split; [reflexivity|]. repeat constructor.
  - vm_compute. split; discriminate.
  - vm_compute. split; discriminate.
  - vm_compute. split; discriminate.
  - vm_compute. split; discriminate.
  - split; [exact Hr | exact Hc].
Defined.

(** C10. [crop_image] hands its truncated bounds to the slice as they
    are.  A negative lower bound is read from the far end of its axis:
    the selection starts at the axis length plus the bound, floored at 0,
    not at position 0.  On an image 1000 pixels wide the bounds -10 and
    50 select from column 990 and give no column at all, where cutting to
    the edge would give the 50 columns from 0.  [scale_corners] does
    produce such bounds: the corners (0, 0) and (6, 6) scale to a lower
    bound of -1. *)
Theorem crop_image_negative_min_from_far_end :
  forall (A : Type) (image : ndarray A) (coord1 coord2 : coord),
    let h := Z.of_nat (nrows image) in
    let w := Z.of_nat (ncols image) in
    let min_x := crop_min_x coord1 coord2 in
    let max_x := crop_max_x coord1 coord2 in
    let min_y := crop_min_y coord1 coord2 in
    let max_y := crop_max_y coord1 coord2 in
    let cropped_image := crop_image image coord1 coord2 in
    cropped_image = slice2 image min_y max_y min_x max_x /\
    (min_x < 0 ->
       Py.slice_start w min_x = Z.max 0 (w + min_x) /\
       rows cropped_image
       = map (fun r => take (ncols cropped_image) (drop (Z.to_nat (Z.max 0 (w + min_x))) r))
             (Py.slice h min_y max_y (rows image))) /\
    (min_y < 0 ->
       Py.slice_start h min_y = Z.max 0 (h + min_y) /\
       rows cropped_image
       = map (Py.slice w min_x max_x)
             (take (nrows cropped_image) (drop (Z.to_nat (Z.max 0 (h + min_y))) (rows image)))) /\
    (w = 1000 -> min_x = -10 -> max_x = 50 ->
       Py.slice_start w min_x = 990 /\
       ncols cropped_image = 0%nat /\
       Forall (fun r => r = []) (rows cropped_image) /\
       ncols (spec_crop_image image coord1 coord2) = 50%nat) /\
    crop_min_x (fst (scale_corners (Coord 0 0) (Coord 6 6)))
               (snd (scale_corners (Coord 0 0) (Coord 6 6))) = -1.
Proof.
  intros A image coord1 coord2 h w min_x max_x min_y max_y cropped_image.
  assert (Hcrop : cropped_image = slice2 image min_y max_y min_x max_x) by reflexivity.
  split; [exact Hcrop|]. split; [|split; [|split; [|reflexivity]]].
  - intros Hneg.
    assert (Hs : Py.slice_start w min_x = Z.max 0 (w + min_x)).
    { apply adjust_index_negative; lia. }
    split; [exact Hs|].
    rewrite Hcrop. unfold slice2. cbn [rows ncols]. fold h w.
    apply map_ext. intros r. unfold Py.slice. rewrite Hs. reflexivity.
  - intros Hneg.
    assert (Hs : Py.slice_start h min_y = Z.max 0 (h + min_y)).
    { apply adjust_index_negative; lia. }
    split; [exact Hs|].
    rewrite Hcrop. unfold slice2. cbn [rows nrows]. fold h w.
    unfold Py.slice at 2. rewrite Hs. reflexivity.
  - intros Hw Hmin Hmax.
    assert (Hlen : Py.slice_length w min_x max_x = 0).
    { rewrite Hw, Hmin, Hmax. reflexivity. }
    split; [rewrite Hw, Hmin; reflexivity|].
    split; [rewrite Hcrop; unfold slice2; cbn [ncols]; fold w; rewrite Hlen; reflexivity|].
    split.
    + rewrite Hcrop. unfold slice2. cbn [rows]. fold h w.
      apply Forall_map, Forall_forall. intros r _. cbn beta.
      unfold Py.slice. rewrite Hlen. reflexivity.
    + unfold spec_crop_image, clamped_sub. cbn [ncols].
      fold w. fold (crop_min_x coord1 coord2) (crop_max_x coord1 coord2).
      fold min_x max_x. rewrite Hw, Hmin, Hmax. reflexivity.
Qed.

Lemma crop_image_negative_min_from_far_end_witness :
  Py.slice_start 4 (crop_min_x (Coord (-3 # 2) 0) (Coord (7 # 2) 1)) = 3 /\
  rows (crop_image Sample.strip (Coord (-3 # 2) 0) (Coord (7 # 2) 1)) = [[]].
Proof.
  destruct (crop_image_negative_min_from_far_end Z Sample.strip
              (Coord (-3 # 2) 0) (Coord (7 # 2) 1)) as (_ & Hx & _).
  destruct Hx as [Hs Hrows]; [vm_compute; reflexivity|].
  split; [exact Hs|]. rewrite Hrows. vm_compute. reflexivity.
Defined.


(** ** [scale_corners]: what rounding leaves of the scaling *)

Section RoundingFacts.

Local Open Scope Q_scope.

Lemma nearest_even_error (y : Q) :
  Qabs (inject_Z (Rounding.nearest_even y) - y) <= 1 # 2.
Proof.
  unfold Rounding.nearest_even.
  pose proof (Qfloor_le y) as Hlo. pose proof (Qlt_floor y) as Hhi.
  assert (Hinj : inject_Z (Qfloor y + 1) == inject_Z (Qfloor y) + 1).
  { rewrite inject_Z_plus. reflexivity. }
  rewrite Hinj in Hhi.
  apply Qabs_Qle_condition.
  destruct (Qcompare (y - inject_Z (Qfloor y)) (1 # 2)) eqn:E.
  - apply Qeq_alt in E. destruct (Z.even (Qfloor y)); [|rewrite Hinj]; lra.
  - apply Qlt_alt in E. lra.
  - apply Qgt_alt in E. rewrite Hinj. lra.
Qed.

Lemma two_power_pos (z : Z) : 0 < 2 ^ z.
Proof. apply Qpower_0_lt. reflexivity. Qed.

(** [ilog2] does not overshoot. *)
Lemma ilog2_le (x : Q) : 0 < x -> 2 ^ Rounding.ilog2 x <= x.
Proof.
  intros Hx. unfold Rounding.ilog2.
  set (a := Z.log2 (Qnum x)). set (b := Z.log2 (Z.pos (Qden x))).
  destruct (Qle_bool (2 ^ (a - b)) x) eqn:E; [apply Qle_bool_iff, E|].
  clear E.
  assert (Hn : (0 < Qnum x)%Z).
  { destruct x as [n d]. unfold Qlt in Hx. cbn in Hx |- *. lia. }
  assert (Ha : (0 <= a)%Z) by apply Z.log2_nonneg.
  assert (Hb : (0 <= b)%Z) by apply Z.log2_nonneg.
  destruct (Z.log2_spec (Qnum x) Hn) as [Hlo _]. fold a in Hlo.
  destruct (Z.log2_spec (Z.pos (Qden x)) (Pos2Z.is_pos _)) as [_ Hhi]. fold b in Hhi.
  replace (a - b - 1)%Z with (a - (b + 1))%Z by lia.
  rewrite Qpower_minus by discriminate.
  rewrite <- !(Zpower_Qpower 2) by lia.
  replace (Z.succ b) with (b + 1)%Z in Hhi by lia.
  assert (Hpb : (0 < 2 ^ (b + 1))%Z) by (apply Z.pow_pos_nonneg; lia).
  assert (Hpa : (0 < 2 ^ a)%Z) by (apply Z.pow_pos_nonneg; lia).
  remember (2 ^ (b + 1))%Z as pb eqn:Epb. remember (2 ^ a)%Z as pa eqn:Epa.
  clear Epb Epa.
  assert (Hden : 0 < inject_Z pb).
  { unfold Qlt, inject_Z. cbn [Qnum Qden]. lia. }
  apply Qle_shift_div_r; [exact Hden|].
  destruct x as [n d]. cbn [Qnum Qden] in *.
  unfold Qle, Qmult, inject_Z. cbn [Qnum Qden].
  rewrite ?Z.mul_1_r, ?Pos.mul_1_r. nia.
Qed.

(** Rounding to [p] bits has relative error at most [2 ^ (- p)]. *)
Lemma round_error (p : Z) (x : Q) :
  Qabs (Rounding.round p x - x) <= Rounding.unit_roundoff p * Qabs x.
Proof.
  unfold Rounding.round, Rounding.unit_roundoff.
  destruct (Qeq_bool x 0) eqn:E0.
  - apply Qeq_bool_iff in E0. rewrite E0.
    change (Qabs (0 - 0)) with 0. change (Qabs 0) with 0.
    rewrite Qmult_0_r. apply Qle_refl.
  - assert (Hx : ~ x == 0).
    { intros H. apply Qeq_bool_iff in H. congruence. }
    assert (Hpos : 0 < Qabs x).
    { destruct (Qlt_le_dec 0 (Qabs x)) as [H | H]; [exact H|].
      exfalso. apply Hx. pose proof (Qabs_nonneg x).
      assert (Hz : Qabs x == 0) by lra.
      pose proof (Qle_Qabs x). pose proof (Qle_Qabs (- x)) as H'.
      rewrite Qabs_opp in H'. lra. }
    pose proof (ilog2_le (Qabs x) Hpos) as Hlog.
    set (e := Rounding.ilog2 (Qabs x)) in *.
    pose proof (two_power_pos (e - p + 1)) as Hulp.
    assert (Hsplit : 2 ^ (e - p + 1) == 2 * (2 ^ e * 2 ^ (- p))).
    { replace (e - p + 1)%Z with (1 + (e + - p))%Z by lia.
      rewrite !Qpower_plus by discriminate. reflexivity. }
    pose proof (two_power_pos (- p)) as Hp.
    pose proof (two_power_pos e) as He.
    remember (2 ^ (e - p + 1)) as ulp eqn:Eulp. clear Eulp.
    pose proof (nearest_even_error (x / ulp)) as Hn.
    remember (inject_Z (Rounding.nearest_even (x / ulp))) as k eqn:Ek. clear Ek.
    assert (Hxy : x == (x / ulp) * ulp) by (field; lra).
    remember (x / ulp) as y eqn:Ey. clear Ey.
    assert (Hdiff : k * ulp - x == (k - y) * ulp) by (rewrite Hxy; ring).
    rewrite Hdiff, Qabs_Qmult, (Qabs_pos ulp) by lra.
    assert (Hstep : Qabs (k - y) * ulp <= (1 # 2) * ulp).
    { apply Qmult_le_compat_r; [exact Hn | lra]. }
    assert (Hfin : 2 ^ e * 2 ^ (- p) <= Qabs x * 2 ^ (- p)).
    { apply Qmult_le_compat_r; [exact Hlog | lra]. }
    remember (2 ^ (- p)) as up eqn:Eup. clear Eup.
    remember (2 ^ e) as pe eqn:Epe. clear Epe.
    remember (Qabs (k - y) * ulp) as lhs eqn:El. clear El.
    remember (Qabs x) as ax eqn:Eax. clear Eax.
    assert (Hcomm : up * ax == ax * up) by ring.
    remember (pe * up) as t1 eqn:E1. remember (ax * up) as t2 eqn:E2.
    remember (up * ax) as t3 eqn:E3. clear E1 E2 E3.
    lra.
Qed.

Lemma abs_zero (x : Q) : Qabs x <= 0 -> x == 0.
Proof. intros H. apply Qabs_Qle_condition in H. lra. Qed.

Lemma sq_abs (x : Q) : x * x == Qabs x * Qabs x.
Proof. apply Qabs_case; intros _; ring. Qed.

(** Equal offsets in absolute value, up to a factor, give the squared
    distances up to the square of the factor. *)
Lemma dist2_scaled (s c m : coord) (k : Q) :
  veq (vabs (vsub s m)) (vmul (vabs (vsub c m)) k) ->
  dist2 s m == dist2 c m * (k * k).
Proof.
  intros [E0 E1]. unfold vabs, vsub, vmul in E0, E1. cbn [at0 at1] in E0, E1.
  unfold dist2.
  rewrite (sq_abs (at0 s - at0 m)), (sq_abs (at1 s - at1 m)), E0, E1.
  rewrite (sq_abs (at0 c - at0 m)), (sq_abs (at1 c - at1 m)). ring.
Qed.

End RoundingFacts.

(** The analysis of one axis, for any rounding whose relative error is
    at most [u]. *)
Section StandardModel.

Local Open Scope Q_scope.

Variable rnd : Q -> Q.
Variable u : Q.
Hypothesis u_range : 0 <= u <= 1 # 16.
Hypothesis rnd_error : forall x : Q, Qabs (rnd x - x) <= u * Qabs x.

Lemma rnd_within (x k A : Q) :
  - (k * A) <= x <= k * A -> - (k * (u * A)) <= rnd x - x <= k * (u * A).
Proof.
  intros Hx. apply Qabs_Qle_condition.
  apply Qabs_Qle_condition in Hx.
  eapply Qle_trans; [apply rnd_error|].
  assert (Hk : k * (u * A) == k * A * u) by ring.
  rewrite Hk.
  rewrite (Qmult_comm u). apply Qmult_le_compat_r; [exact Hx | apply u_range].
Qed.

Lemma mul_within (x y B G : Q) :
  - B <= x <= B -> - G <= y <= G -> - (B * G) <= x * y <= B * G.
Proof.
  intros Hx Hy. apply Qabs_Qle_condition. apply Qabs_Qle_condition in Hx, Hy.
  rewrite Qabs_Qmult.
  apply Qmult_le_compat_nonneg; split; try apply Qabs_nonneg; assumption.
Qed.

Lemma small_error (A : Q) : 0 <= A -> 0 <= u * A <= (1 # 16) * A.
Proof.
  intros HA. split.
  - apply Qmult_le_0_compat; [apply u_range | exact HA].
  - apply Qmult_le_compat_r; [apply u_range | exact HA].
Qed.

Lemma abs_bounds (c1 c2 A : Q) :
  Qabs c1 + Qabs c2 <= A ->
  (- A <= c1 <= A) /\ (- A <= c2 <= A) /\ (- A <= c1 + c2 <= A) /\ 0 <= A.
Proof.
  intros HA.
  pose proof (Qle_Qabs c1) as H1. pose proof (Qle_Qabs (- c1)) as H1'.
  rewrite Qabs_opp in H1'.
  pose proof (Qle_Qabs c2) as H2. pose proof (Qle_Qabs (- c2)) as H2'.
  rewrite Qabs_opp in H2'.
  pose proof (Qabs_nonneg c1). pose proof (Qabs_nonneg c2).
  repeat split; lra.
Qed.

(** The computed centre is close to the midpoint, and no larger than
    the points. *)
Lemma center_error (c1 c2 A : Q) :
  Qabs c1 + Qabs c2 <= A ->
  let m := rnd (rnd (c1 + c2) / 2) in
  (- ((33 # 32) * (u * A)) <= m - (c1 + c2) * (1 # 2) <= (33 # 32) * (u * A)) /\
  (- ((5 # 8) * A) <= m <= (5 # 8) * A).
Proof.
  intros HA m.
  destruct (abs_bounds c1 c2 A HA) as (H1 & H2 & H12 & HA0).
  pose proof (small_error A HA0) as HE.
  assert (Ha : - (1 * (u * A)) <= rnd (c1 + c2) - (c1 + c2) <= 1 * (u * A)).
  { apply rnd_within. lra. }
  subst m.
  remember (rnd (c1 + c2)) as a eqn:Ea. clear Ea.
  assert (Hhalf : a / 2 == a * (1 # 2)) by field.
  remember (a / 2) as h eqn:Eh. clear Eh.
  assert (Hm : - ((17 # 32) * (u * A)) <= rnd h - h <= (17 # 32) * (u * A)).
  { apply rnd_within. lra. }
  remember (rnd h) as m eqn:Em. clear Em.
  split; lra.
Qed.

(** The computed factor is close to 4/3. *)
Lemma factor_error : - ((4 # 3) * u) <= rnd (8 / 6) - (4 # 3) <= (4 # 3) * u.
Proof.
  pose proof (rnd_error (8 / 6)) as HF.
  remember (rnd (8 / 6)) as F eqn:EF. clear EF.
  apply Qabs_Qle_condition in HF.
  assert (H86 : 8 / 6 == 4 # 3) by reflexivity.
  assert (Habs : Qabs (8 / 6) == 4 # 3) by reflexivity.
  rewrite Habs, H86 in HF. lra.
Qed.

(** One scaled point against the exact value of its expression. *)
Lemma point_error (c m F A : Q) :
  - A <= c <= A ->
  - ((5 # 8) * A) <= m <= (5 # 8) * A ->
  - ((4 # 3) * u) <= F - (4 # 3) <= (4 # 3) * u ->
  let s := rnd (m + rnd (rnd (c - m) * F)) in
  - (11 * (u * A)) <= s - (m + (c - m) * (4 # 3)) <= 11 * (u * A).
Proof.
  intros Hc Hm HF s.
  assert (HA0 : 0 <= A) by lra.
  pose proof (small_error A HA0) as HE.
  assert (Hd : - ((13 # 8) * (u * A)) <= rnd (c - m) - (c - m) <= (13 # 8) * (u * A)).
  { apply rnd_within. lra. }
  subst s. remember (rnd (c - m)) as d eqn:Ed. clear Ed.
  assert (Hprod : - ((7 # 4) * A * ((4 # 3) * u)) <= d * (F - (4 # 3))
                  <= (7 # 4) * A * ((4 # 3) * u)).
  { apply mul_within; lra. }
  assert (Hx3 : d * F == d * (F - (4 # 3)) + (4 # 3) * d) by ring.
  assert (Hscale : (7 # 4) * A * ((4 # 3) * u) == (7 # 3) * (u * A)) by ring.
  remember (d * (F - (4 # 3))) as r eqn:Er. clear Er.
  remember (d * F) as x3 eqn:Ex3. clear Ex3.
  remember ((7 # 4) * A * ((4 # 3) * u)) as g eqn:Eg. clear Eg.
  assert (Hp : - ((5 # 2) * (u * A)) <= rnd x3 - x3 <= (5 # 2) * (u * A)).
  { apply rnd_within. lra. }
  remember (rnd x3) as p eqn:Ep. clear Ep.
  assert (Hs : - ((27 # 8) * (u * A)) <= rnd (m + p) - (m + p) <= (27 # 8) * (u * A)).
  { apply rnd_within. lra. }
  remember (rnd (m + p)) as s eqn:Es. clear Es.
  lra.
Qed.

(** One axis of [scale_corners_fl]: the point scaled from [c], one of
    the two coordinates. *)
Lemma axis_scaled (c1 c2 c : Q) :
  Qabs c <= Qabs c1 + Qabs c2 ->
  let A := Qabs c1 + Qabs c2 in
  let m := rnd (rnd (c1 + c2) / 2) in
  let s := rnd (m + rnd (rnd (c - m) * rnd (8 / 6))) in
  Qabs (s - (m + (c - m) * (8 / 6))) <= 11 * (u * A) /\
  Qabs (Qabs (s - m) - Qabs (c - m) * (8 / 6)) <= 11 * (u * A).
Proof.
  intros Hc A m s.
  destruct (center_error c1 c2 A (Qle_refl A)) as [_ Hm]. fold m in Hm.
  assert (Hc' : - A <= c <= A) by (apply Qabs_Qle_condition; exact Hc).
  pose proof (point_error c m (rnd (8 / 6)) A Hc' Hm factor_error) as Hs.
  fold s in Hs. cbv zeta in Hs.
  assert (H86 : 8 / 6 == 4 # 3) by reflexivity.
  rewrite !H86.
  clearbody m s A.
  assert (Hpoint : Qabs (s - (m + (c - m) * (4 # 3))) <= 11 * (u * A)).
  { apply Qabs_Qle_condition. lra. }
  split; [exact Hpoint|].
  assert (Hy : Qabs (c - m) * (4 # 3) == Qabs ((c - m) * (4 # 3))).
  { rewrite Qabs_Qmult. reflexivity. }
  rewrite Hy.
  assert (Hdiff : s - (m + (c - m) * (4 # 3)) == (s - m) - (c - m) * (4 # 3)) by ring.
  rewrite Hdiff in Hpoint.
  pose proof (Qabs_triangle_reverse (s - m) ((c - m) * (4 # 3))) as H1.
  pose proof (Qabs_triangle_reverse ((c - m) * (4 # 3)) (s - m)) as H2.
  rewrite (Qabs_Qminus ((c - m) * (4 # 3)) (s - m)) in H2.
  apply Qabs_Qle_condition.
  remember (Qabs (s - m)) as X eqn:EX. remember (Qabs ((c - m) * (4 # 3))) as Y eqn:EY.
  remember (Qabs (s - m - (c - m) * (4 # 3))) as D eqn:ED. clear EX EY ED.
  lra.
Qed.


End StandardModel.

(** The two models meet: binary64 arithmetic gives, at the points (100,
    100) and (101, 101), the numbers that rounding to 53 bits gives. *)
Example f64_is_rounding_to_53_bits :
  option_map
    (Qeq_bool (at0 (fst (scale_corners_fl (Rounding.round 53) (Coord 100 100) (Coord 101 101)))))
    (F64.to_Q (F64.f0 (fst (F64.scale_corners F64.p100 F64.p101)))) = Some true /\
  option_map
    (Qeq_bool (at1 (snd (scale_corners_fl (Rounding.round 53) (Coord 100 100) (Coord 101 101)))))
    (F64.to_Q (F64.f1 (snd (F64.scale_corners F64.p100 F64.p101)))) = Some true /\
  option_map (Qeq_bool (Rounding.round 53 (8 / 6))) (F64.to_Q F64.scaling_factor) = Some true.
Proof. vm_compute. repeat split. Qed.

Example f64_operations_round_to_53_bits :
  let rnd := Rounding.round 53 in
  option_map (Qeq_bool (rnd (rnd (1 / 10) + rnd (2 / 10))))%Q (F64.to_Q F64.sum_tenths)
  = Some true /\
  option_map (Qeq_bool (rnd (-7 / 3)))%Q (F64.to_Q F64.minus_seven_thirds) = Some true /\
  option_map (Qeq_bool (rnd (2 ^ 53 + 1)))%Q (F64.to_Q F64.tie_down) = Some true /\
  option_map (Qeq_bool (rnd (2 ^ 53 + 3)))%Q (F64.to_Q F64.tie_up) = Some true /\
  (Rounding.round 53 (2 ^ 53 + 1) == 2 ^ 53)%Q /\
  (Rounding.round 53 (2 ^ 53 + 3) == 2 ^ 53 + 4)%Q.
Proof. vm_compute. repeat split. Qed.

(** Without rounding, [scale_corners_fl] is [scale_corners]. *)
Lemma scale_corners_fl_exact (coord1 coord2 : coord) :
  scale_corners_fl (fun x => x) coord1 coord2 = scale_corners coord1 coord2.
Proof. reflexivity. Qed.

(** C6, as stated, fails.  In binary64, for the corners (100, 100) and
    (101, 101), the centre is 100.5 and the first returned point is
    99.83333333333333: its distance from the centre,
    0.6666666666666714, is not the original distance 0.5 times 8/6,
    0.6666666666666666, neither as floats nor as the exact numbers the
    floats stand for. *)
Lemma scale_corners_f64_distance_not_exact :
  PrimFloat.eqb
    (F64.distance (F64.f0 (fst (F64.scale_corners F64.p100 F64.p101)))
                  (F64.f0 (F64.center F64.p100 F64.p101)))
    (PrimFloat.mul (F64.distance (F64.f0 F64.p100) (F64.f0 (F64.center F64.p100 F64.p101)))
                   F64.scaling_factor)
  = false /\
  option_map (Qeq_bool (201 # 2)) (F64.to_Q (F64.f0 (F64.center F64.p100 F64.p101)))
  = Some true /\
  option_map (fun s => Qeq_bool (Qabs (s - (201 # 2))) ((1 # 2) * (8 / 6)))
             (F64.to_Q (F64.f0 (fst (F64.scale_corners F64.p100 F64.p101))))
  = Some false.
Proof. vm_compute. repeat split. Qed.
(** C6, amended.  For a float type with unit roundoff [u] (at most
    1/16; 2^-53 for float64, 2^-24 for float32), as long as no operation
    overflows or underflows, so that every operation returns its exact
    result with a relative error of at most [u]: each point returned by
    [scale_corners] agrees with the exact value of
    [center + (c_i - center) * (8/6)], where [center] is the centre as
    computed, and its distance from that centre agrees with the original
    distance times 8/6, within [11 * u * (|c1| + |c2|)] on each axis.
    In exact arithmetic ([u = 0]) the distance is multiplied by exactly
    8/6, on each axis and as a Euclidean distance (stated on squares). *)
Theorem scale_corners_fl_scales_by_8_6 :
  forall (rnd : Q -> Q) (u : Q),
    (0 <= u <= 1 # 16)%Q ->
    (forall x : Q, Qabs (rnd x - x) <= u * Qabs x)%Q ->
    forall coord1 coord2 : coord,
      let center := center_fl rnd coord1 coord2 in
      let scaled_coord1 := fst (scale_corners_fl rnd coord1 coord2) in
      let scaled_coord2 := snd (scale_corners_fl rnd coord1 coord2) in
      let tol := tolerance 11 u coord1 coord2 in
      vwithin tol scaled_coord1 (vadd center (vmul (vsub coord1 center) (8 / 6))) /\
      vwithin tol scaled_coord2 (vadd center (vmul (vsub coord2 center) (8 / 6))) /\
      vwithin tol (vabs (vsub scaled_coord1 center))
                  (vmul (vabs (vsub coord1 center)) (8 / 6)) /\
      vwithin tol (vabs (vsub scaled_coord2 center))
                  (vmul (vabs (vsub coord2 center)) (8 / 6)) /\
      ((u == 0)%Q ->
       veq (vabs (vsub scaled_coord1 center)) (vmul (vabs (vsub coord1 center)) (8 / 6)) /\
       veq (vabs (vsub scaled_coord2 center)) (vmul (vabs (vsub coord2 center)) (8 / 6)) /\
       (dist2 scaled_coord1 center == dist2 coord1 center * ((8 / 6) * (8 / 6)))%Q /\
       (dist2 scaled_coord2 center == dist2 coord2 center * ((8 / 6) * (8 / 6)))%Q).
Proof.
  intros rnd u Hu Hrnd [x1 y1] [x2 y2] center scaled_coord1 scaled_coord2 tol.
  assert (Hx1 : (Qabs x1 <= Qabs x1 + Qabs x2)%Q) by (pose proof (Qabs_nonneg x2); lra).
  assert (Hx2 : (Qabs x2 <= Qabs x1 + Qabs x2)%Q) by (pose proof (Qabs_nonneg x1); lra).
  assert (Hy1 : (Qabs y1 <= Qabs y1 + Qabs y2)%Q) by (pose proof (Qabs_nonneg y2); lra).
  assert (Hy2 : (Qabs y2 <= Qabs y1 + Qabs y2)%Q) by (pose proof (Qabs_nonneg y1); lra).
  destruct (axis_scaled rnd u Hu Hrnd x1 x2 x1 Hx1) as [Px1 Dx1].
  destruct (axis_scaled rnd u Hu Hrnd x1 x2 x2 Hx2) as [Px2 Dx2].
  destruct (axis_scaled rnd u Hu Hrnd y1 y2 y1 Hy1) as [Py1 Dy1].
  destruct (axis_scaled rnd u Hu Hrnd y1 y2 y2 Hy2) as [Py2 Dy2].
  assert (W1 : vwithin tol (vabs (vsub scaled_coord1 center))
                 (vmul (vabs (vsub (Coord x1 y1) center)) (8 / 6)))
    by (split; [exact Dx1 | exact Dy1]).
  assert (W2 : vwithin tol (vabs (vsub scaled_coord2 center))
                 (vmul (vabs (vsub (Coord x2 y2) center)) (8 / 6)))
    by (split; [exact Dx2 | exact Dy2]).
  split; [split; [exact Px1 | exact Py1]|].
  split; [split; [exact Px2 | exact Py2]|].
  split; [exact W1|]. split; [exact W2|].
  intros Hzero.
  assert (Hexact : forall a b : coord, vwithin tol a b -> veq a b).
  { intros a b [H0 H1]. unfold tol, tolerance in H0, H1. cbn [at0 at1] in H0, H1.
    rewrite Hzero in H0, H1. rewrite Qmult_0_l, Qmult_0_r in H0, H1.
    split; [apply abs_zero in H0 | apply abs_zero in H1]; lra. }
  pose proof (Hexact _ _ W1) as V1. pose proof (Hexact _ _ W2) as V2.
  split; [exact V1|]. split; [exact V2|].
  split; apply dist2_scaled; assumption.
Qed.

Lemma scale_corners_fl_scales_by_8_6_witness :
  vwithin (tolerance 11 (Rounding.unit_roundoff 53) (Coord 100 100) (Coord 101 101))
    (fst (scale_corners_fl (Rounding.round 53) (Coord 100 100) (Coord 101 101)))
    (vadd (center_fl (Rounding.round 53) (Coord 100 100) (Coord 101 101))
          (vmul (vsub (Coord 100 100)
                      (center_fl (Rounding.round 53) (Coord 100 100) (Coord 101 101)))
                (8 / 6))).
Proof.
  assert (Hu : (0 <= Rounding.unit_roundoff 53 <= 1 # 16)%Q)
    by (vm_compute; split; discriminate).
  exact (proj1 (scale_corners_fl_scales_by_8_6
                  (Rounding.round 53) (Rounding.unit_roundoff 53) Hu (round_error 53)
                  (Coord 100 100) (Coord 101 101))).
Defined.




(** ** [find_corners] *)

Section Indexing.

Context {X : Type}.




End Indexing.



(** Pixels below the threshold become 255 (white), the others 0. *)
Lemma binarize_pixels (gray : ndarray Z) (threshold_value : Z) :
  binarize gray threshold_value
  = ndmap (fun p => if p <? threshold_value then 255 else 0) gray.
Proof.
  unfold binarize, ndmap. f_equal.
  apply map_ext. intros r. apply map_ext. intros p.
  destruct (p <? threshold_value); reflexivity.
Qed.

Section Detection.

Context {pixel : Type}.
Context (resize : ndarray pixel -> Q -> Q -> ndarray pixel).
Context (cvtColor_BGR2GRAY : ndarray pixel -> ndarray Z).
Context (findChessboardCorners : ndarray Z -> Z * Z -> bool * list coord).

Local Abbreviation attempt gray t :=
  [Print (MsgTrying t); FindChessboardCorners (binarize gray t) (7, 7)].

(** A failed detection moves on to the next threshold. *)
Lemma try_thresholds_failure gray resize_factor t ts junk (t0 : list (event pixel)) :
  findChessboardCorners (binarize gray t) (7, 7) = (false, junk) ->
  try_thresholds findChessboardCorners gray resize_factor (t :: ts) t0
  = try_thresholds findChessboardCorners gray resize_factor ts (t0 ++ attempt gray t).
Proof.
  intros Hdet. cbn [try_thresholds]. unfold bind, emit. rewrite Hdet.
  rewrite <- app_assoc. reflexivity.
Qed.


(** The loop prints and calls the detector, and writes no file. *)
Lemma try_thresholds_writes gray resize_factor ts (t0 : list (event pixel)) :
  writes (snd (try_thresholds findChessboardCorners gray resize_factor ts t0)) = writes t0.
Proof.
  revert t0. induction ts as [|t ts IH]; intros t0; [reflexivity|].
  cbn [try_thresholds]. unfold bind, emit, lift, ret.
  destruct (findChessboardCorners (binarize gray t) (7, 7)) as [found corners].
  assert (Hw : writes ((t0 ++ [Print (MsgTrying t)])
                       ++ [FindChessboardCorners (binarize gray t) (7, 7)]) = writes t0).
  { unfold writes. rewrite !omap_app. cbn. rewrite !app_nil_r. reflexivity. }
  destruct found.
  - destruct (truediv 1 resize_factor); [|exact Hw].
    destruct (getitem _ 0); [|exact Hw].
    destruct (getitem _ (-1)); exact Hw.
  - rewrite IH. exact Hw.
Qed.

Lemma find_corners_writes image resize_factor (t0 : list (event pixel)) :
  writes (snd (find_corners resize cvtColor_BGR2GRAY findChessboardCorners
                 image resize_factor t0)) = writes t0.
Proof.
  unfold find_corners, bind.
  pose proof (try_thresholds_writes
                (cvtColor_BGR2GRAY (resize image resize_factor resize_factor))
                resize_factor [160; 192] t0) as Hw.
  destruct (try_thresholds _ _ _ _ _) as [[[[first last]|]|e] t1]; cbn [snd] in Hw |- *.
  - exact Hw.
  - unfold emit, ret. cbn [snd]. unfold writes in Hw |- *.
    rewrite omap_app. cbn. rewrite app_nil_r. exact Hw.
  - exact Hw.
Qed.

End Detection.

Section FindCorners.

Context {pixel : Type}.
Context (resize : ndarray pixel -> Q -> Q -> ndarray pixel).
Context (cvtColor_BGR2GRAY : ndarray pixel -> ndarray Z).
Context (findChessboardCorners : ndarray Z -> Z * Z -> bool * list coord).


(** C5. When the detection fails for 160 and for 192, [find_corners]
    returns the pair [(None, None)] without raising, after the two
    attempts and the final message. *)
Theorem find_corners_not_found :
  forall (image : ndarray pixel) (resize_factor : Q) (t0 : list (event pixel)),
    let gray := cvtColor_BGR2GRAY (resize image resize_factor resize_factor) in
    let binary := fun t : Z => ndmap (fun p => if p <? t then 255 else 0) gray in
    fst (findChessboardCorners (binary 160) (7, 7)) = false ->
    fst (findChessboardCorners (binary 192) (7, 7)) = false ->
    find_corners resize cvtColor_BGR2GRAY findChessboardCorners image resize_factor t0
    = (Ret (None, None),
       t0 ++ [Print (MsgTrying 160); FindChessboardCorners (binary 160) (7, 7);
              Print (MsgTrying 192); FindChessboardCorners (binary 192) (7, 7);
              Print MsgNotFound]).
Proof.
  intros image resize_factor t0 gray binary H160 H192.
  assert (Hbin : forall t, binary t = binarize gray t).
  { intros t. symmetry. apply binarize_pixels. }
  rewrite !Hbin in *.
  destruct (findChessboardCorners (binarize gray 160) (7, 7)) as [f1 junk1] eqn:E1.
  destruct (findChessboardCorners (binarize gray 192) (7, 7)) as [f2 junk2] eqn:E2.
  cbn [fst] in H160, H192. subst f1 f2.
  unfold find_corners, bind. fold gray.
  rewrite (try_thresholds_failure _ _ _ _ _ junk1 t0 E1).
  rewrite (try_thresholds_failure _ _ _ _ _ junk2 _ E2).
  cbn [try_thresholds]. unfold ret, emit.
  rewrite <- !app_assoc. reflexivity.
Qed.

End FindCorners.


Lemma find_corners_not_found_witness :
  find_corners Sample.resize Sample.cvtColor_BGR2GRAY Sample.findChessboardCorners
    Sample.bright (1 # 2) []
  = (Ret (None, None),
     [] ++ [Print (MsgTrying 160);
            FindChessboardCorners
              (ndmap (fun p => if p <? 160 then 255 else 0) Sample.bright) (7, 7);
            Print (MsgTrying 192);
            FindChessboardCorners
              (ndmap (fun p => if p <? 192 then 255 else 0) Sample.bright) (7, 7);
            Print MsgNotFound]).
Proof.
  apply (find_corners_not_found Sample.resize Sample.cvtColor_BGR2GRAY
           Sample.findChessboardCorners Sample.bright (1 # 2) []);
    reflexivity.
Defined.

(** ** [cropfish_cli] *)

Section Cli.

Context {pixel : Type}.
Context (resize : ndarray pixel -> Q -> Q -> ndarray pixel).
Context (cvtColor_BGR2GRAY : ndarray pixel -> ndarray Z).
Context (findChessboardCorners : ndarray Z -> Z * Z -> bool * list coord).
Context (imread : string -> option (ndarray pixel)).


End Cli.



(** * Further properties *)

(** ** [crop_image]: contents and sizes *)

Section CropContents.

Context {A : Type}.

Lemma lookup_map {B C : Type} (f : B -> C) (l : list B) (i : nat) :
  map f l !! i = option_map f (l !! i).
Proof.
  revert i. induction l as [|x l IH]; intros [|i]; cbn; try reflexivity. apply IH.
Qed.

Lemma slice_length_le (len a b : Z) : 0 <= len -> 0 <= Py.slice_length len a b <= len.
Proof.
  intros Hlen. unfold Py.slice_length.
  pose proof (adjust_index_range len a Hlen).
  pose proof (adjust_index_range len b Hlen).
  destruct (_ <? _) eqn:E; lia.
Qed.

(** Position [i] of a slice is position [start + i] of the sequence. *)
Lemma lookup_slice {B : Type} (len a b : Z) (l : list B) (i : nat) :
  (i < Z.to_nat (Py.slice_length len a b))%nat ->
  Py.slice len a b l !! i = l !! (Z.to_nat (Py.slice_start len a) + i)%nat.
Proof.
  intros Hi. unfold Py.slice.
  rewrite lookup_take_lt by exact Hi. apply lookup_drop.
Qed.

Lemma slice_whole {B : Type} (len b : Z) (l : list B) :
  Z.of_nat (length l) = len -> len <= b -> Py.slice len 0 b l = l.
Proof.
  intros Hlen Hb. unfold Py.slice, Py.slice_start, Py.slice_length, Py.adjust_index.
  replace (0 <? 0) with false by reflexivity.
  destruct (len <=? 0) eqn:E0.
  - destruct l as [|x l]; [|cbn [length] in Hlen; lia].
    rewrite drop_nil, take_nil. reflexivity.
  - destruct (b <? 0) eqn:E1; [lia|].
    destruct (len <=? b) eqn:E2; [|lia].
    destruct (0 <? len) eqn:E3; [|lia].
    cbn [Z.to_nat]. rewrite drop_0. apply take_ge. lia.
Qed.

Lemma slice_length_whole (len b : Z) :
  0 <= len -> len <= b -> Py.slice_length len 0 b = len.
Proof.
  intros Hlen Hb. unfold Py.slice_length, Py.adjust_index.
  replace (0 <? 0) with false by reflexivity.
  destruct (b <? 0) eqn:E1; [exfalso; lia|].
  destruct (len <=? b) eqn:E2; [|exfalso; lia].
  destruct (len <=? 0) eqn:E0.
  - rewrite Z.ltb_irrefl. lia.
  - destruct (0 <? len) eqn:E3; lia.
Qed.

End CropContents.

(** X5. Whatever the coordinates, the crop of a well-formed image is
    well formed (its data has the rows and columns its shape says) and is
    no larger than the image on either axis. *)
Theorem crop_image_well_formed_within :
  forall (A : Type) (image : ndarray A) (coord1 coord2 : coord),
    wf_ndarray image ->
    wf_ndarray (crop_image image coord1 coord2) /\
    (nrows (crop_image image coord1 coord2) <= nrows image)%nat /\
    (ncols (crop_image image coord1 coord2) <= ncols image)%nat.
Proof.
  intros A image coord1 coord2 Hwf. split; [|split].
  - rewrite crop_image_unfold. apply wf_slice2, Hwf.
  - rewrite crop_image_unfold. unfold slice2. cbn [nrows].
    pose proof (slice_length_le (Z.of_nat (nrows image))
                  (crop_min_y coord1 coord2) (crop_max_y coord1 coord2)). lia.
  - rewrite crop_image_unfold. unfold slice2. cbn [ncols].
    pose proof (slice_length_le (Z.of_nat (ncols image))
                  (crop_min_x coord1 coord2) (crop_max_x coord1 coord2)). lia.
Qed.

Lemma crop_image_well_formed_within_witness :
  wf_ndarray (crop_image Sample.grid (Coord (-3 # 2) 9) (Coord (7 # 2) (1 # 3))).
Proof.
  apply (crop_image_well_formed_within Z Sample.grid (Coord (-3 # 2) 9) (Coord (7 # 2) (1 # 3))).
  split; [reflexivity|]. repeat constructor.
Defined.

(** X6. The crop holds the pixels of the image unchanged and in place:
    the element at row [i], column [j] of the crop is the element of the
    image at row [start_y + i], column [start_x + j], where the starts
    are the first selected row and column.  For bounds inside the image
    the starts are the truncated minima themselves. *)
Theorem crop_image_pixels :
  forall (A : Type) (image : ndarray A) (coord1 coord2 : coord) (i j : nat),
    let h := Z.of_nat (nrows image) in
    let w := Z.of_nat (ncols image) in
    let cropped_image := crop_image image coord1 coord2 in
    let start_y := Py.slice_start h (crop_min_y coord1 coord2) in
    let start_x := Py.slice_start w (crop_min_x coord1 coord2) in
    (i < nrows cropped_image)%nat ->
    (j < ncols cropped_image)%nat ->
    pixel_at cropped_image i j
    = pixel_at image (Z.to_nat start_y + i) (Z.to_nat start_x + j) /\
    (0 <= crop_min_y coord1 coord2 <= h -> start_y = crop_min_y coord1 coord2) /\
    (0 <= crop_min_x coord1 coord2 <= w -> start_x = crop_min_x coord1 coord2).
Proof.
  intros A image coord1 coord2 i j h w cropped_image start_y start_x Hi Hj.
  split; [|split; intros Hin; apply adjust_index_inside; exact Hin].
  subst cropped_image. rewrite crop_image_unfold in Hi, Hj |- *.
  unfold slice2 in Hi, Hj. cbn [nrows ncols] in Hi, Hj. fold h w in Hi, Hj.
  unfold pixel_at, slice2. cbn [rows]. fold h w.
  rewrite lookup_map, (lookup_slice h _ _ _ i Hi). fold start_y.
  destruct (rows image !! (Z.to_nat start_y + i)%nat) as [r|]; [|reflexivity].
  cbn [option_map]. apply (lookup_slice w _ _ r j Hj).
Qed.

Lemma crop_image_pixels_witness :
  pixel_at (crop_image Sample.grid (Coord (7 # 2) (5 # 2)) (Coord (3 # 2) (1 # 3))) 1 0
  = Some 21.
Proof.
  destruct (crop_image_pixels Z Sample.grid (Coord (7 # 2) (5 # 2)) (Coord (3 # 2) (1 # 3))
              1%nat 0%nat) as [Hpx _].
  - vm_compute. lia.
  - vm_compute. lia.
  - rewrite Hpx. reflexivity.
Defined.

(** X7. A rectangle that starts at row 0 and column 0 and reaches the
    far edges, or goes past them, gives back the whole image. *)
Theorem crop_image_whole :
  forall (A : Type) (image : ndarray A) (coord1 coord2 : coord),
    wf_ndarray image ->
    crop_min_y coord1 coord2 = 0 -> crop_min_x coord1 coord2 = 0 ->
    Z.of_nat (nrows image) <= crop_max_y coord1 coord2 ->
    Z.of_nat (ncols image) <= crop_max_x coord1 coord2 ->
    crop_image image coord1 coord2 = image.
Proof.
  intros A [h w rs] coord1 coord2 [Hrows Hcols] Hy Hx Hh Hw.
  cbn [nrows ncols rows] in *.
  rewrite crop_image_unfold, Hy, Hx. unfold slice2. cbn [nrows ncols rows].
  rewrite !slice_length_whole by lia.
  rewrite (slice_whole (Z.of_nat h)) by lia.
  rewrite !Nat2Z.id. f_equal.
  clear Hrows Hh. induction rs as [|r rs' IH]; [reflexivity|].
  apply Forall_cons in Hcols as [Hr Hrs].
  cbn [map]. rewrite (slice_whole (Z.of_nat w)) by lia.
  f_equal. apply IH, Hrs.
Qed.

Lemma crop_image_whole_witness :
  crop_image Sample.grid (Coord (1 # 2) 40) (Coord 9 (1 # 3)) = Sample.grid.
Proof.
  apply (crop_image_whole Z Sample.grid (Coord (1 # 2) 40) (Coord 9 (1 # 3))).
  - split; [reflexivity|]. repeat constructor.
  - reflexivity.
  - reflexivity.
  - vm_compute. discriminate.
  - vm_compute. discriminate.
Defined.

(** ** [crop_image]: only the integer parts matter *)

Section Truncated.

Lemma int_inject_Z (z : Z) : Py.int (inject_Z z) = z.
Proof. unfold Py.int, inject_Z. cbn [Qnum Qden]. apply Z.quot_1_r. Qed.

Lemma lt_inject_Z (x y : Z) : Py.lt (inject_Z x) (inject_Z y) = (x <? y).
Proof.
  destruct (x <? y) eqn:E.
  - apply lt_spec. rewrite <- Zlt_Qlt. lia.
  - apply lt_false. rewrite <- Zle_Qle. lia.
Qed.

(** Truncating before taking the minimum gives the same bound as
    truncating after. *)
Lemma int_min_truncated (a b : Q) :
  Py.int (Py.min a b) = Py.int (Py.min (inject_Z (Py.int a)) (inject_Z (Py.int b))).
Proof.
  unfold Py.min at 2. rewrite lt_inject_Z.
  unfold Py.min. destruct (Py.lt b a) eqn:E.
  - apply lt_spec in E. pose proof (int_mono b a (Qlt_le_weak _ _ E)) as Hle.
    destruct (Py.int b <? Py.int a) eqn:E'; rewrite int_inject_Z; lia.
  - apply lt_false in E. pose proof (int_mono a b E) as Hle.
    destruct (Py.int b <? Py.int a) eqn:E'; rewrite int_inject_Z; lia.
Qed.

Lemma int_max_truncated (a b : Q) :
  Py.int (Py.max a b) = Py.int (Py.max (inject_Z (Py.int a)) (inject_Z (Py.int b))).
Proof.
  unfold Py.max at 2. rewrite lt_inject_Z.
  unfold Py.max. destruct (Py.lt a b) eqn:E.
  - apply lt_spec in E. pose proof (int_mono a b (Qlt_le_weak _ _ E)) as Hle.
    destruct (Py.int a <? Py.int b) eqn:E'; rewrite int_inject_Z; lia.
  - apply lt_false in E. pose proof (int_mono b a E) as Hle.
    destruct (Py.int a <? Py.int b) eqn:E'; rewrite int_inject_Z; lia.
Qed.

End Truncated.

(** X8. [crop_image] depends on its coordinates only through their
    integer parts: truncating both coordinates beforehand gives the same
    crop. *)
Theorem crop_image_ignores_fractions :
  forall (A : Type) (image : ndarray A) (coord1 coord2 : coord),
    crop_image image coord1 coord2
    = crop_image image (truncated coord1) (truncated coord2).
Proof.
  intros A image [x1 y1] [x2 y2]. unfold crop_image, truncated. cbn [at0 at1].
  rewrite <- !int_min_truncated, <- !int_max_truncated. reflexivity.
Qed.

(** ** [find_corners]: shape of the result and of the run *)

Section FindCornersRuns.

Context {pixel : Type}.
Context (resize : ndarray pixel -> Q -> Q -> ndarray pixel).
Context (cvtColor_BGR2GRAY : ndarray pixel -> ndarray Z).
Context (findChessboardCorners : ndarray Z -> Z * Z -> bool * list coord).

Lemma detections_app (t u : list (event pixel)) :
  detections (t ++ u) = detections t ++ detections u.
Proof. unfold detections. apply omap_app. Qed.

(** What the loop does with the detector, whatever comes of it. *)
Lemma try_thresholds_detections gray resize_factor ts (t0 : list (event pixel)) :
  let calls :=
    fix calls (ts : list Z) : list (ndarray Z * (Z * Z)) :=
      match ts with
      | [] => []
      | t :: ts' =>
          (binarize gray t, (7, 7))
          :: (if fst (findChessboardCorners (binarize gray t) (7, 7)) then [] else calls ts')
      end in
  detections (snd (try_thresholds findChessboardCorners gray resize_factor ts t0))
  = detections t0 ++ calls ts.
Proof.
  intros calls. revert t0. induction ts as [|t ts IH]; intros t0.
  - cbn. rewrite app_nil_r. reflexivity.
  - cbn [try_thresholds calls]. unfold bind, emit, lift, ret.
    assert (Hd : detections ((t0 ++ [Print (MsgTrying t)])
                   ++ [FindChessboardCorners (binarize gray t) (7, 7)])
                 = detections t0 ++ [(binarize gray t, (7, 7))]).
    { rewrite !detections_app. cbn. rewrite app_nil_r. reflexivity. }
    destruct (findChessboardCorners (binarize gray t) (7, 7)) as [found corners].
    cbn [fst]. destruct found.
    + destruct (truediv 1 resize_factor); [|exact Hd].
      destruct (getitem _ 0); [|exact Hd].
      destruct (getitem _ (-1)); exact Hd.
    + rewrite IH, Hd, <- app_assoc. reflexivity.
Qed.

Lemma detections_snoc_print (t : list (event pixel)) (m : message) :
  detections (t ++ [Print m]) = detections t.
Proof. rewrite detections_app. cbn. apply app_nil_r. Qed.

(** The loop only yields a pair or nothing; it extends the actions. *)
Lemma try_thresholds_extends gray resize_factor ts (t0 : list (event pixel)) :
  exists t', snd (try_thresholds findChessboardCorners gray resize_factor ts t0) = t0 ++ t'.
Proof.
  revert t0. induction ts as [|t ts IH]; intros t0.
  - exists []. cbn. rewrite app_nil_r. reflexivity.
  - cbn [try_thresholds]. unfold bind, emit, lift, ret.
    set (t1 := (t0 ++ [Print (MsgTrying t)])
               ++ [FindChessboardCorners (binarize gray t) (7, 7)]).
    assert (Ht1 : exists t', t1 = t0 ++ t').
    { eexists. subst t1. rewrite <- app_assoc. reflexivity. }
    destruct (findChessboardCorners (binarize gray t) (7, 7)) as [found corners].
    destruct found.
    + destruct (truediv 1 resize_factor); [|exact Ht1].
      destruct (getitem _ 0); [|exact Ht1].
      destruct (getitem _ (-1)); exact Ht1.
    + destruct (IH t1) as [t' Ht']. destruct Ht1 as [t'' Ht''].
      exists (t'' ++ t'). rewrite Ht', Ht'', <- app_assoc. reflexivity.
Qed.

End FindCornersRuns.

Section FindCornersResults.

Context {pixel : Type}.
Context (resize : ndarray pixel -> Q -> Q -> ndarray pixel).
Context (cvtColor_BGR2GRAY : ndarray pixel -> ndarray Z).
Context (findChessboardCorners : ndarray Z -> Z * Z -> bool * list coord).

(** X9. Whenever [find_corners] returns, its two results are present
    together or absent together, and they are absent exactly when the
    detection failed for both thresholds. *)
Theorem find_corners_paired :
  forall (image : ndarray pixel) (resize_factor : Q) (t0 t1 : list (event pixel))
         (res : option coord * option coord),
    let gray := cvtColor_BGR2GRAY (resize image resize_factor resize_factor) in
    find_corners resize cvtColor_BGR2GRAY findChessboardCorners image resize_factor t0
    = (Ret res, t1) ->
    paired res = true /\
    (res = (None, None) <->
     fst (findChessboardCorners (binarize gray 160) (7, 7)) = false /\
     fst (findChessboardCorners (binarize gray 192) (7, 7)) = false).
Proof.
  intros image resize_factor t0 t1 res gray.
  unfold find_corners, bind. fold gray. cbn [try_thresholds].
  unfold bind, emit, lift, ret.
  destruct (findChessboardCorners (binarize gray 160) (7, 7)) as [f1 cs1].
  destruct (findChessboardCorners (binarize gray 192) (7, 7)) as [f2 cs2].
  cbn [fst].
  destruct f1.
  - destruct (truediv 1 resize_factor); [|discriminate].
    destruct (getitem _ 0); [|discriminate].
    destruct (getitem _ (-1)); [|discriminate].
    intros [= <- <-]. split; [reflexivity|].
    split; [discriminate | intros [? _]; discriminate].
  - destruct f2.
    + destruct (truediv 1 resize_factor); [|discriminate].
      destruct (getitem _ 0); [|discriminate].
      destruct (getitem _ (-1)); [|discriminate].
      intros [= <- <-]. split; [reflexivity|].
      split; [discriminate | intros [_ ?]; discriminate].
    + intros [= <- <-]. split; [reflexivity|]. split; [split; reflexivity | reflexivity].
Qed.

(** The actions the model of [find_corners] records, once the grey
    image has been obtained. *)
Lemma find_corners_actions :
  forall (image : ndarray pixel) (resize_factor : Q) (t0 : list (event pixel)),
    let gray := cvtColor_BGR2GRAY (resize image resize_factor resize_factor) in
    let run := find_corners resize cvtColor_BGR2GRAY findChessboardCorners
                 image resize_factor t0 in
    detections (snd run)
    = detections t0
      ++ (binarize gray 160, (7, 7))
         :: (if fst (findChessboardCorners (binarize gray 160) (7, 7)) then []
             else [(binarize gray 192, (7, 7))]) /\
    writes (snd run) = writes t0 /\
    exists t', snd run = t0 ++ t'.
Proof.
  intros image resize_factor t0 gray run.
  pose proof (try_thresholds_detections findChessboardCorners gray resize_factor
                [160; 192] t0) as Hd.
  pose proof (try_thresholds_extends findChessboardCorners gray resize_factor
                [160; 192] t0) as [t' Ht'].
  assert (Hd' :
    detections (snd (try_thresholds findChessboardCorners gray resize_factor [160; 192] t0))
    = detections t0
      ++ (binarize gray 160, (7, 7))
         :: (if fst (findChessboardCorners (binarize gray 160) (7, 7)) then []
             else [(binarize gray 192, (7, 7))])).
  { rewrite Hd. f_equal. cbv zeta. f_equal.
    destruct (fst (findChessboardCorners (binarize gray 160) (7, 7))); [reflexivity|].
    f_equal.
    destruct (fst (findChessboardCorners (binarize gray 192) (7, 7))); reflexivity. }
  clear Hd. rename Hd' into Hd.
  split; [|split].
  - subst run. unfold find_corners, bind. fold gray.
    destruct (try_thresholds _ _ _ _ _) as [[[[first last]|]|e] t1];
      cbn [snd] in Hd |- *; try exact Hd.
    unfold emit, ret. cbn [snd]. rewrite detections_snoc_print. exact Hd.
  - apply find_corners_writes.
  - subst run. unfold find_corners, bind. fold gray.
    destruct (try_thresholds _ _ _ _ _) as [[[[first last]|]|e] t1];
      cbn [snd] in Ht' |- *; try (exists t'; exact Ht').
    unfold emit, ret. cbn [snd]. exists (t' ++ [Print MsgNotFound]).
    rewrite Ht', <- app_assoc. reflexivity.
Qed.

(** X10. Whenever [find_corners], called with a positive factor,
    returns, it has called the detector on the image binarized at 160 and
    then, only if that detection failed, on the image binarized at 192:
    one call or two, never more, always with the pattern 7 by 7; it has
    written no file and has kept the earlier actions. *)
Theorem find_corners_detector_calls :
  forall (image : ndarray pixel) (resize_factor : Q) (t0 t1 : list (event pixel))
         (res : option coord * option coord),
    let gray := cvtColor_BGR2GRAY (resize image resize_factor resize_factor) in
    (0 < resize_factor)%Q ->
    find_corners resize cvtColor_BGR2GRAY findChessboardCorners image resize_factor t0
    = (Ret res, t1) ->
    detections t1
    = detections t0
      ++ (binarize gray 160, (7, 7))
         :: (if fst (findChessboardCorners (binarize gray 160) (7, 7)) then []
             else [(binarize gray 192, (7, 7))]) /\
    writes t1 = writes t0 /\
    exists t', t1 = t0 ++ t'.
Proof.
  intros image resize_factor t0 t1 res gray Hpos Hrun.
  pose proof (find_corners_actions image resize_factor t0) as Hact.
  cbv zeta in Hact. rewrite Hrun in Hact. cbn [snd] in Hact. exact Hact.
Qed.

End FindCornersResults.

Lemma find_corners_detector_calls_witness :
  detections ([Print (MsgTrying 160);
               FindChessboardCorners (binarize Sample.grid 160) (7, 7)] : list (event Z))
  = detections (@nil (event Z)) ++ [(binarize Sample.grid 160, (7, 7))].
Proof.
  apply (find_corners_detector_calls Sample.resize Sample.cvtColor_BGR2GRAY
           Sample.findChessboardCorners Sample.grid (1 # 2) []
           [Print (MsgTrying 160);
            FindChessboardCorners (binarize Sample.grid 160) (7, 7)]
           (Some (vmul (Coord 2 2) (1 / (1 # 2))), Some (vmul (Coord 6 6) (1 / (1 # 2)))));
    reflexivity.
Defined.

Lemma find_corners_paired_witness :
  paired (Some (vmul (Coord 2 2) (1 / (1 # 2))), Some (vmul (Coord 6 6) (1 / (1 # 2))))
  = true.
Proof.
  apply (find_corners_paired Sample.resize Sample.cvtColor_BGR2GRAY
           Sample.findChessboardCorners Sample.grid (1 # 2) []
           [Print (MsgTrying 160);
            FindChessboardCorners (binarize Sample.grid 160) (7, 7)]).
  reflexivity.
Defined.

(** X11. Binarizing keeps the shape of the grey image and yields only
    the values 0 and 255, and raising the threshold never turns a white
    pixel black: what is foreground at 160 is foreground at 192. *)
Theorem binarize_shape_values_monotone :
  forall (gray : ndarray Z) (t t' : Z),
    t <= t' ->
    nrows (binarize gray t) = nrows gray /\
    ncols (binarize gray t) = ncols gray /\
    (wf_ndarray gray -> wf_ndarray (binarize gray t)) /\
    (forall i j p, pixel_at (binarize gray t) i j = Some p -> p = 0 \/ p = 255) /\
    (forall i j, pixel_at (binarize gray t) i j = Some 255 ->
                 pixel_at (binarize gray t') i j = Some 255).
Proof.
  intros gray t t' Hle.
  assert (Hpx : forall u i j,
             pixel_at (binarize gray u) i j
             = option_map (fun p => if p <? u then 255 else 0) (pixel_at gray i j)).
  { intros u i j. rewrite binarize_pixels. unfold pixel_at, ndmap. cbn [rows].
    rewrite lookup_map. destruct (rows gray !! i) as [r|]; [|reflexivity].
    cbn [option_map]. apply lookup_map. }
  split; [reflexivity|]. split; [reflexivity|]. split; [|split].
  - intros [Hrows Hcols]. unfold wf_ndarray, binarize, ndmap. cbn [nrows ncols rows].
    split; [rewrite length_map; exact Hrows|].
    apply Forall_map. eapply Forall_impl; [exact Hcols|].
    intros r Hr. cbn beta in Hr |- *. rewrite length_map. exact Hr.
  - intros i j p. rewrite Hpx. destruct (pixel_at gray i j) as [q|]; [|discriminate].
    cbn [option_map]. intros [= <-]. destruct (q <? t); [right | left]; reflexivity.
  - intros i j. rewrite !Hpx. destruct (pixel_at gray i j) as [q|]; [|discriminate].
    cbn [option_map]. destruct (q <? t) eqn:E; [|discriminate].
    intros _. destruct (q <? t') eqn:E'; [reflexivity|]. exfalso. lia.
Qed.

Lemma binarize_shape_values_monotone_witness :
  pixel_at (binarize (mk_ndarray 1 2 [[100; 170]]) 192) 0 0 = Some 255.
Proof.
  destruct (binarize_shape_values_monotone (mk_ndarray 1 2 [[100; 170]]) 160 192)
    as (_ & _ & _ & _ & Hmono).
  - lia.
  - apply Hmono. reflexivity.
Defined.

(** ** [cropfish_cli]: whole runs *)

Section CliRuns.

Context {pixel : Type}.
Context (resize : ndarray pixel -> Q -> Q -> ndarray pixel).
Context (cvtColor_BGR2GRAY : ndarray pixel -> ndarray Z).
Context (findChessboardCorners : ndarray Z -> Z * Z -> bool * list coord).
Context (imread : string -> option (ndarray pixel)).

(** X12. No run of the command writes more than one file or a file
    under another name than [output.png], whatever the image and the
    detector; a run that raises writes nothing, and a run that writes has
    read an image and writes a crop of it that is no larger than it. *)
Theorem cropfish_cli_at_most_one_write :
  forall (image_path : string) (t0 : list (event pixel)),
    let run := cropfish_cli resize cvtColor_BGR2GRAY findChessboardCorners imread
                 image_path t0 in
    (writes (snd run) = writes t0 \/
     exists image coord1 coord2,
       imread image_path = Some image /\
       fst run = Ret tt /\
       writes (snd run) = writes t0 ++ [("output.png", crop_image image coord1 coord2)] /\
       (nrows (crop_image image coord1 coord2) <= nrows image)%nat /\
       (ncols (crop_image image coord1 coord2) <= ncols image)%nat) /\
    (forall e, fst run = Raise e -> writes (snd run) = writes t0).
Proof.
  intros image_path t0 run. subst run. unfold cropfish_cli.
  destruct (imread image_path) as [image|]; [|split; [left|intros e _]; reflexivity].
  pose proof (find_corners_writes resize cvtColor_BGR2GRAY findChessboardCorners
                image 0.5%Q t0) as Hw.
  unfold bind.
  destruct (find_corners _ _ _ _ _ _) as [[[[coord1|] [coord2|]]|e] t1];
    cbn [snd] in Hw; try (split; [left|intros e' _]; exact Hw).
  destruct (scale_corners coord1 coord2) as [s1 s2]. unfold emit. cbn [fst snd].
  assert (Hwr : writes ((t1 ++ [Print (MsgCoords s1 s2)])
                        ++ [Imwrite "output.png" (crop_image image s1 s2)])
                = writes t0 ++ [("output.png", crop_image image s1 s2)]).
  { unfold writes in Hw |- *. rewrite !omap_app, Hw. cbn. rewrite app_nil_r. reflexivity. }
  split; [|intros e He; discriminate He].
  right. exists image, s1, s2.
  split; [reflexivity|]. split; [reflexivity|]. split; [exact Hwr|].
  rewrite crop_image_unfold. unfold slice2. cbn [nrows ncols].
  pose proof (slice_length_le (Z.of_nat (nrows image))
                (crop_min_y s1 s2) (crop_max_y s1 s2)).
  pose proof (slice_length_le (Z.of_nat (ncols image))
                (crop_min_x s1 s2) (crop_max_x s1 s2)).
  lia.
Qed.

(** X13. When the image is read and the detection fails for both
    thresholds, the command returns normally after the two attempts and
    the failure message, and writes nothing. *)
Theorem cropfish_cli_not_found :
  forall (image_path : string) (image : ndarray pixel) (t0 : list (event pixel)),
    let gray := cvtColor_BGR2GRAY (resize image 0.5 0.5)%Q in
    imread image_path = Some image ->
    fst (findChessboardCorners (binarize gray 160) (7, 7)) = false ->
    fst (findChessboardCorners (binarize gray 192) (7, 7)) = false ->
    let run := cropfish_cli resize cvtColor_BGR2GRAY findChessboardCorners imread
                 image_path t0 in
    run = (Ret tt,
           t0 ++ [Print (MsgTrying 160); FindChessboardCorners (binarize gray 160) (7, 7);
                  Print (MsgTrying 192); FindChessboardCorners (binarize gray 192) (7, 7);
                  Print MsgNotFound]) /\
    writes (snd run) = writes t0.
Proof.
  intros image_path image t0 gray Himg H160 H192 run.
  destruct (findChessboardCorners (binarize gray 160) (7, 7)) as [f1 junk1] eqn:E1.
  destruct (findChessboardCorners (binarize gray 192) (7, 7)) as [f2 junk2] eqn:E2.
  cbn [fst] in H160, H192. subst f1 f2.
  assert (Hrun : run = (Ret tt,
           t0 ++ [Print (MsgTrying 160); FindChessboardCorners (binarize gray 160) (7, 7);
                  Print (MsgTrying 192); FindChessboardCorners (binarize gray 192) (7, 7);
                  Print MsgNotFound])).
  { subst run. unfold cropfish_cli. rewrite Himg.
    unfold bind at 1. unfold find_corners. fold gray. unfold bind at 1.
    rewrite (try_thresholds_failure _ _ _ _ _ junk1 t0 E1).
    rewrite (try_thresholds_failure _ _ _ _ _ junk2 _ E2).
    cbn [try_thresholds]. unfold ret, emit, bind.
    rewrite <- !app_assoc. reflexivity. }
  split; [exact Hrun|]. rewrite Hrun. cbn [snd].
  unfold writes. rewrite omap_app. cbn. apply app_nil_r.
Qed.


End CliRuns.

Lemma cropfish_cli_not_found_witness :
  writes (snd (cropfish_cli Sample.resize Sample.cvtColor_BGR2GRAY
                 Sample.findChessboardCorners Sample.imread "blank.png" []))
  = writes [].
Proof.
  apply (cropfish_cli_not_found Sample.resize Sample.cvtColor_BGR2GRAY
           Sample.findChessboardCorners Sample.imread "blank.png" Sample.bright []);
    reflexivity.
Defined.


Lemma cropfish_cli_at_most_one_write_witness :
  writes (snd (cropfish_cli Sample.resize Sample.cvtColor_BGR2GRAY
                 Sample.findChessboardCorners Sample.imread "missing.png" []))
  = writes [].
Proof.
  destruct (cropfish_cli_at_most_one_write Sample.resize Sample.cvtColor_BGR2GRAY
              Sample.findChessboardCorners Sample.imread "missing.png" [])
    as [_ Hraise].
  apply (Hraise CvError). reflexivity.
Defined.
